(** * Janus multi-AI orchestrator: section extraction, prompt merging and
      the Claude planner's fallback chain

    Shallow embedding of [janus/src/orchestrator.ts] and of
    [janus/src/providers/claudePlanner.ts].

    Strings are JavaScript strings restricted to code units below 256
    (Latin-1), so a character is an [ascii] and [length] counts code units
    as [String.prototype.length] does.

    The regular expressions of the extractor are data: a small pattern
    syntax with the matcher of a backtracking engine, which lists the
    ways of matching in the order of their priority.

    The planner's surroundings (environment variables, the Anthropic and
    OpenAI clients, the HTTP service, the shell) are a record of outcomes;
    every external call has one, so a transport that never answers is
    outside the model.  Exceptions and [console.error] are threaded
    through a small monad. *)

From Stdlib Require Import Bool Arith Lia List Ascii String.
Import ListNotations.
Open Scope list_scope.
Open Scope string_scope.
Open Scope nat_scope.

(* ===================================================================== *)
(** ** JavaScript string primitives used by the sources                   *)
(* ===================================================================== *)

Module Js.

(** Line feed, the separator the sources write as the escape for U+000A. *)
Definition LF : ascii := ascii_of_nat 10.
Definition nl : string := String LF "".

(** White space and line terminators below 256: TAB, LF, VT, FF, CR, SP
    and NBSP.  Both the regular-expression class for white space and
    [String.prototype.trim] use this set. *)
Definition is_space (c : ascii) : bool :=
  let n := nat_of_ascii c in
  ((9 <=? n) && (n <=? 13)) || (n =? 32) || (n =? 160).

(** [s.trimStart()] *)
Fixpoint trimStart (s : string) : string :=
  match s with
  | String c s' => if is_space c then trimStart s' else s
  | EmptyString => EmptyString
  end.

(** [s.trimEnd()]: a character is kept when something non-blank follows
    it or when it is not white space itself. *)
Fixpoint trimEnd (s : string) : string :=
  match s with
  | String c s' =>
      match trimEnd s' with
      | EmptyString => if is_space c then EmptyString else String c EmptyString
      | t => String c t
      end
  | EmptyString => EmptyString
  end.

(** [s.trim()] *)
Definition trim (s : string) : string := trimEnd (trimStart s).

(** JavaScript truthiness of a string: every string but the empty one. *)
Definition truthy (s : string) : bool :=
  match s with EmptyString => false | String _ _ => true end.

(** [a || b] on strings. *)
Definition or_else (a b : string) : string := if truthy a then a else b.

(** [c.toLowerCase()] on one code unit below 256: A-Z and the Latin-1
    capitals U+00C0..U+00DE (without the multiplication sign U+00D7) move
    up by 32. *)
Definition lower_char (c : ascii) : ascii :=
  let n := nat_of_ascii c in
  if ((65 <=? n) && (n <=? 90))
     || ((192 <=? n) && (n <=? 222) && negb (n =? 215))
  then ascii_of_nat (n + 32) else c.

(** [s.toLowerCase()] *)
Fixpoint toLowerCase (s : string) : string :=
  match s with
  | String c s' => String (lower_char c) (toLowerCase s')
  | EmptyString => EmptyString
  end.

(** [s.startsWith(p)] *)
Fixpoint startsWith (p s : string) : bool :=
  match p, s with
  | EmptyString, _ => true
  | String a p', String b s' => Ascii.eqb a b && startsWith p' s'
  | String _ _, EmptyString => false
  end.

(** [s.includes(p)] *)
Fixpoint includes (p s : string) : bool :=
  startsWith p s ||
  match s with
  | String _ s' => includes p s'
  | EmptyString => false
  end.

(** [s.split('\n')]: the pieces between line feeds; the empty string
    splits into one empty piece. *)
Fixpoint split_lines (s : string) : list string :=
  match s with
  | EmptyString => [EmptyString]
  | String c s' =>
      if Ascii.eqb c LF then EmptyString :: split_lines s'
      else match split_lines s' with
           | l :: ls => String c l :: ls
           | [] => [String c EmptyString]
           end
  end.

(** [xs.join(sep)] *)
Fixpoint join (sep : string) (xs : list string) : string :=
  match xs with
  | [] => EmptyString
  | [x] => x
  | x :: rest => x ++ sep ++ join sep rest
  end.

(** [s.substring(0, n)]: the first [n] code units, or all of [s]. *)
Fixpoint take (n : nat) (s : string) : string :=
  match n, s with
  | S n', String c s' => String c (take n' s')
  | _, _ => EmptyString
  end.

End Js.

(* ===================================================================== *)
(** ** The regular-expression fragment of the three extractor patterns    *)
(* ===================================================================== *)

Module Regex.
Import Js.

(** Character classes of the patterns: [.] and the white-space class. *)
Inductive cls : Type := Dot | Space.

(** Pattern syntax.  Quantifiers occur in the sources on character classes
    only ([\s*] and [.+?]) and on one literal ([\n?]). *)
Inductive re : Type :=
| Bol                       (* ^  *)
| Eol                       (* $  *)
| Lit (p : string)          (* literal text *)
| StarG (c : cls)           (* c*   greedy *)
| PlusL (c : cls)           (* c+?  lazy *)
| Opt (r : re)              (* r?   greedy *)
| Cap (r : re)              (* ( r )  capturing group *)
| Seq (r1 r2 : re)
| Alt (r1 r2 : re).

(** The flags the patterns carry: [i] and [s]; none has [m] or [g], so
    [^] and [$] match at the two ends of the input only. *)
Record flags : Type := { ignoreCase : bool; dotAll : bool }.

(** Canonicalisation under [i] without [u]: a-z fold to A-Z.  A code unit
    of 128 or more never canonicalises to one below 128, and the patterns
    are ASCII, so no other folding can make a pattern character match. *)
Definition canon (c : ascii) : ascii :=
  let n := nat_of_ascii c in
  if (97 <=? n) && (n <=? 122) then ascii_of_nat (n - 32) else c.

Definition char_eq (f : flags) (a b : ascii) : bool :=
  if ignoreCase f then Ascii.eqb (canon a) (canon b) else Ascii.eqb a b.

(** Line terminators below 256, which [.] refuses without the [s] flag. *)
Definition is_line_terminator (c : ascii) : bool :=
  let n := nat_of_ascii c in (n =? 10) || (n =? 13).

Definition cls_matches (f : flags) (c : cls) (a : ascii) : bool :=
  match c with
  | Dot => dotAll f || negb (is_line_terminator a)
  | Space => is_space a
  end.

(** One way of matching: the text consumed, the text of group 1 when the
    group took part, and the input left. *)
Record way : Type := mkWay
  { consumed : string; group1 : option string; rest : string }.

Definition empty_way (s : string) : way := mkWay "" None s.

(** Prepend one consumed character to a way. *)
Definition shift (a : ascii) (w : way) : way :=
  mkWay (String a (consumed w)) (group1 w) (rest w).

(** Sequence two ways: texts concatenate, the later group binding wins. *)
Definition glue (w1 w2 : way) : way :=
  mkWay (consumed w1 ++ consumed w2)
        (match group1 w2 with Some g => Some g | None => group1 w1 end)
        (rest w2).

(** A literal against the front of the input. *)
Fixpoint lit_ways (f : flags) (p s : string) : list way :=
  match p with
  | EmptyString => [empty_way s]
  | String a p' =>
      match s with
      | String b s' =>
          if char_eq f a b then map (shift b) (lit_ways f p' s') else []
      | EmptyString => []
      end
  end.

(** [c*] greedy: the longest run first, then ever shorter ones. *)
Fixpoint star_ways (f : flags) (c : cls) (s : string) : list way :=
  match s with
  | String a s' =>
      if cls_matches f c a
      then (map (shift a) (star_ways f c s') ++ [empty_way s])%list
      else [empty_way s]
  | EmptyString => [empty_way s]
  end.

(** [c+?] lazy: one character first, then ever longer runs. *)
Fixpoint plus_ways (f : flags) (c : cls) (s : string) : list way :=
  match s with
  | String a s' =>
      if cls_matches f c a
      then shift a (empty_way s') :: map (shift a) (plus_ways f c s')
      else []
  | EmptyString => []
  end.

(** All ways of matching [r] at the front of [s], in the order in which a
    backtracking matcher tries them.  [bol] tells whether the front of [s]
    is the start of the whole input. *)
Fixpoint ways (f : flags) (r : re) (bol : bool) (s : string) : list way :=
  match r with
  | Bol => if bol then [empty_way s] else []
  | Eol => match s with EmptyString => [empty_way s] | String _ _ => [] end
  | Lit p => lit_ways f p s
  | StarG c => star_ways f c s
  | PlusL c => plus_ways f c s
  | Opt r1 => (ways f r1 bol s ++ [empty_way s])%list
  | Cap r1 =>
      map (fun w => mkWay (consumed w) (Some (consumed w)) (rest w))
          (ways f r1 bol s)
  | Seq r1 r2 =>
      flat_map
        (fun w1 =>
           map (glue w1)
               (ways f r2 (bol && negb (truthy (consumed w1))) (rest w1)))
        (ways f r1 bol s)
  | Alt r1 r2 => (ways f r1 bol s ++ ways f r2 bol s)%list
  end.

(** [RegExp.prototype.exec] without [g]: the first way at the leftmost
    start index that has one; start indices run up to the input's end. *)
Fixpoint search (f : flags) (r : re) (bol : bool) (s : string) : option way :=
  match ways f r bol s with
  | w :: _ => Some w
  | [] =>
      match s with
      | String _ s' => search f r false s'
      | EmptyString => None
      end
  end.

(** [s.match(r)]: [None] is [null]. *)
Definition exec (f : flags) (r : re) (s : string) : option way :=
  search f r true s.

(** Alternation of literals, [(?:a|b|...)]. *)
Fixpoint alts (ps : list string) : re :=
  match ps with
  | [] => Lit ""
  | [p] => Lit p
  | p :: rest => Alt (Lit p) (alts rest)
  end.

End Regex.

(* ===================================================================== *)
(** ** janus/src/orchestrator.ts                                          *)
(* ===================================================================== *)

Module Orchestrator.
Import Js Regex.

(** The [PlanResult] interface of [janus/src/types.ts]. *)
Inductive Provider : Type := codex_provider | claude_provider.

Record PlanResult : Type := mkPlanResult
  { provider : Provider;
    systemPrompt : string;
    plan : string;
    rationale : string }.

(** The [JanusOutput] interface; both optional planner fields are always
    set by [planWithJanus]. *)
Record JanusOutput : Type := mkJanusOutput
  { codex : PlanResult;
    claude : PlanResult;
    mergedPrompt : string;
    mergedNotes : string }.

(** Every pattern of the file ends in the flags [is]. *)
Definition flags_is : flags := {| ignoreCase := true; dotAll := true |}.

(** [(?:^|\n)] *)
Definition line_start : re := Alt Bol (Lit nl).

(** [/(?:^|\n)(?:SYSTEM PROMPT|System Prompt|SYSTEM|System):\s*\n?(.+?)
      (?:\n\n|\n(?:PLAN|Plan|RATIONALE|Rationale):|$)/is] *)
Definition sp_labels : re :=
  alts ["SYSTEM PROMPT"; "System Prompt"; "SYSTEM"; "System"].

Definition sp_terminator : re :=
  Alt (Lit (nl ++ nl))
 (Alt (Seq (Lit nl)
      (Seq (alts ["PLAN"; "Plan"; "RATIONALE"; "Rationale"]) (Lit ":")))
      Eol).

Definition systemPromptRe : re :=
  Seq line_start
 (Seq sp_labels
 (Seq (Lit ":")
 (Seq (StarG Space)
 (Seq (Opt (Lit nl))
 (Seq (Cap (PlusL Dot)) sp_terminator))))).

(** [/(?:^|\n)(?:PLAN|Plan|IMPLEMENTATION PLAN|Implementation Plan):\s*\n?(.+?)
      (?:\n\n|\n(?:RATIONALE|Rationale|SYSTEM|System):|$)/is] *)
Definition planRe : re :=
  Seq line_start
 (Seq (alts ["PLAN"; "Plan"; "IMPLEMENTATION PLAN"; "Implementation Plan"])
 (Seq (Lit ":")
 (Seq (StarG Space)
 (Seq (Opt (Lit nl))
 (Seq (Cap (PlusL Dot))
      (Alt (Lit (nl ++ nl))
      (Alt (Seq (Lit nl)
           (Seq (alts ["RATIONALE"; "Rationale"; "SYSTEM"; "System"]) (Lit ":")))
           Eol))))))).

(** [/(?:^|\n)(?:RATIONALE|Rationale|REASONING|Reasoning):\s*\n?(.+?)$/is] *)
Definition rationaleRe : re :=
  Seq line_start
 (Seq (alts ["RATIONALE"; "Rationale"; "REASONING"; "Reasoning"])
 (Seq (Lit ":")
 (Seq (StarG Space)
 (Seq (Opt (Lit nl))
 (Seq (Cap (PlusL Dot)) Eol))))).

(** [m[1].trim()] for a successful match [m].  Group 1 takes part in every
    match of the three patterns (lemma [exec_binds_group] below), so the
    second branch, where JavaScript would throw, is never taken. *)
Definition group1_trimmed (w : way) : string :=
  match group1 w with
  | Some g => trim g
  | None => ""
  end.

(** [content.split('\n').filter((l) => l.trim())] *)
Definition nonblank_lines (content : string) : list string :=
  filter (fun l => truthy (trim l)) (split_lines content).

Definition extractSystemPrompt (content : string) : string :=
  match exec flags_is systemPromptRe content with
  | Some m => group1_trimmed m
  | None =>
      let lines := nonblank_lines content in
      match lines with
      | firstParagraph :: _ =>
          if 200 <? String.length firstParagraph
          then trim (take 200 firstParagraph) ++ "..."
          else trim (join " " (firstn 3 lines))
      | [] => trim content
      end
  end.

Definition extractPlan (content : string) : string :=
  match exec flags_is planRe content with
  | Some m => group1_trimmed m
  | None => ""
  end.

Definition extractRationale (content : string) : string :=
  match exec flags_is rationaleRe content with
  | Some m => group1_trimmed m
  | None => ""
  end.

(** The line filter of [mergeSystemPrompts]. *)
Definition is_refinement_line (line : string) : bool :=
  let trimmed := toLowerCase (trim line) in
  includes "consider" trimmed
  || includes "ensure" trimmed
  || includes "avoid" trimmed
  || includes "note" trimmed.

Definition default_phrase : string :=
  "Execute the task with precision and clarity.".

(** [parts.push(x)] *)
Definition push (parts : list string) (x : string) : list string :=
  List.app parts [x].

Definition mergeSystemPrompts (task codexPrompt claudePrompt : string)
  : string :=
  let codexCore := extractSystemPrompt codexPrompt in
  let claudeCore := extractSystemPrompt claudePrompt in
  let parts := ["Task: " ++ task] in
  let parts :=
    if truthy codexCore
    then push parts (nl ++ "Approach: " ++ codexCore)
    else parts in
  let parts :=
    if truthy claudeCore && negb (String.eqb claudeCore codexCore)
    then
      let claudeRefinements :=
        join "; " (filter is_refinement_line (split_lines claudeCore)) in
      if truthy claudeRefinements
      then push parts (nl ++ "Considerations: " ++ claudeRefinements)
      else parts
    else parts in
  if List.length parts <=? 1
  then task ++ nl ++ nl ++ or_else codexCore default_phrase
  else join "" parts.

(** The array literal of [planWithJanus] before [.filter(...)]. *)
Definition notes_blocks (codexR claudeR : PlanResult) : list string :=
  let codexSystemPrompt := extractSystemPrompt (systemPrompt codexR) in
  let codexPlanText := or_else (extractPlan (systemPrompt codexR)) (plan codexR) in
  let codexRationale :=
    or_else (extractRationale (systemPrompt codexR)) (rationale codexR) in
  let claudeSystemPrompt := extractSystemPrompt (systemPrompt claudeR) in
  let claudePlanText :=
    or_else (extractPlan (systemPrompt claudeR)) (plan claudeR) in
  let claudeRationale :=
    or_else (extractRationale (systemPrompt claudeR)) (rationale claudeR) in
  [ "# Codex Proposal";
    "";
    "## System Prompt";
    codexSystemPrompt;
    "";
    "## Plan";
    or_else codexPlanText "(see rationale)";
    "";
    "## Rationale";
    or_else codexRationale (rationale codexR);
    "";
    "---";
    "";
    "# Claude Proposal";
    "";
    "## System Prompt";
    claudeSystemPrompt;
    "";
    "## Plan";
    or_else claudePlanText "(see rationale)";
    "";
    "## Rationale";
    or_else claudeRationale (rationale claudeR) ].

(** [.filter((line) => line !== '')] *)
Definition kept_blocks (codexR claudeR : PlanResult) : list string :=
  filter (fun line => negb (String.eqb line "")) (notes_blocks codexR claudeR).

(** [planWithJanus] after the two planner promises have resolved to
    [codexR] and [claudeR]. *)
Definition planWithJanus (task : string) (codexR claudeR : PlanResult)
  : JanusOutput :=
  let codexSystemPrompt := extractSystemPrompt (systemPrompt codexR) in
  let claudeSystemPrompt := extractSystemPrompt (systemPrompt claudeR) in
  {| codex := codexR;
     claude := claudeR;
     mergedPrompt :=
       mergeSystemPrompts task codexSystemPrompt claudeSystemPrompt;
     mergedNotes := join nl (kept_blocks codexR claudeR) |}.

End Orchestrator.

(* ===================================================================== *)
(** ** janus/src/providers/claudePlanner.ts                               *)
(* ===================================================================== *)

Module ClaudePlanner.
Import Js.
Export Orchestrator.

(** *** Effects: diagnostics and exceptions

    An asynchronous call either resolves to a value or rejects with a
    thrown value; [console.error] appends to the diagnostic log. *)

Record JsError : Type := mkError
  { is_Error : bool;        (* [err instanceof Error] *)
    message : string }.     (* [err.message] *)

Inductive Outcome (A : Type) : Type :=
| Returned (a : A)
| Thrown (e : JsError).
Arguments Returned {A} a.
Arguments Thrown {A} e.

Definition Log : Type := list (string * JsError).

Definition Async (A : Type) : Type := (Log * Outcome A)%type.

Definition ret {A} (a : A) : Async A := ([], Returned a).

Definition throw {A} (e : JsError) : Async A := ([], Thrown e).

Definition bind {A B} (m : Async A) (k : A -> Async B) : Async B :=
  match m with
  | (l, Returned a) => let (l', o) := k a in ((l ++ l')%list, o)
  | (l, Thrown e) => (l, Thrown e)
  end.

(** [try { m } catch (err) { h err }] *)
Definition try_catch {A} (m : Async A) (h : JsError -> Async A) : Async A :=
  match m with
  | (l, Thrown e) => let (l', o) := h e in ((l ++ l')%list, o)
  | (l, Returned a) => (l, Returned a)
  end.

(** [await] of an external call whose outcome the environment fixes. *)
Definition await {A} (o : Outcome A) : Async A := ([], o).

(** [console.error(label, err)] *)
Definition console_error (label : string) (err : JsError) : Async unit :=
  ([(label, err)], Returned tt).

Definition outcome {A} (m : Async A) : Outcome A := snd m.
Definition diagnostics {A} (m : Async A) : Log := fst m.

Declare Scope async_scope.
Delimit Scope async_scope with async.
Notation "x <- m ;; k" := (bind m (fun x => k))
  (at level 61, m at next level, right associativity) : async_scope.
Notation "m ;;; k" := (bind m (fun _ => k))
  (at level 61, right associativity) : async_scope.
Open Scope async_scope.

(** *** What the planner talks to *)

(** A content block of an Anthropic message: [{ type, text? }]. *)
Record ContentBlock : Type := mkBlock
  { block_type : string; block_text : option string }.

(** [message.content], possibly [undefined]. *)
Record Message : Type := mkMessage
  { content : option (list ContentBlock) }.

(** A value produced by [JSON.parse], seen through the [PlanResult] field
    types: a property the code reads holds a string or something falsy
    ([null], [false], [0]).  Property reads on [null] throw; numbers,
    booleans, strings and arrays have none of the four properties, like an
    object without them. *)
Inductive FieldValue : Type := FString (s : string) | FFalsy.

Inductive JsonValue : Type :=
| JsonNull
| JsonProps (props : list (string * FieldValue)).

(** What the HTTP transport can meet. *)
Inductive HttpOutcome : Type :=
| UrlRejected (e : JsError)       (* [new URL(url)] throws *)
| RequestFailed (e : JsError)     (* the request emits ['error'] *)
| Responded (data : string).      (* the response emits ['end'] *)

(** [process.env] and the outcomes of the external calls. *)
Record Env : Type := mkEnv
  { ANTHROPIC_API_KEY : option string;
    CLAUDE_FLOW_URL : option string;
    CLAUDE_FLOW_CMD : option string;
    OPENAI_API_KEY : option string;
    (* import of the SDK and [anthropic.messages.create]:
       API key, system text, user text *)
    anthropic_create : string -> string -> string -> Outcome Message;
    (* POST of [{ task }]: URL, task *)
    http_post : string -> string -> HttpOutcome;
    (* [JSON.parse]; [None] is a [SyntaxError] *)
    JSON_parse : string -> option JsonValue;
    (* [execAsync(command)]: stdout and stderr *)
    exec_shell : string -> Outcome (string * string);
    (* [openai.chat.completions.create]: API key, system text, user text;
       the value is [res.choices[0]?.message?.content] *)
    openai_create : string -> string -> string -> Outcome (option string) }.

(** [!v] fails for an environment variable that is set and not empty. *)
Definition env_value (v : option string) : option string :=
  match v with
  | Some s => if truthy s then Some s else None
  | None => None
  end.

Definition user_text (task : string) : string :=
  "Given the task:" ++ nl ++ task ++ nl ++ nl
  ++ "Propose refinements and edge cases to consider.".

(** *** Stage 1: the Anthropic API *)

Definition anthropic_sys : string :=
  join " "
    [ "You are Claude-Flow, a cautious and reflective co-orchestrator.";
      "Your job is to critique plans, catch failure modes,";
      "and propose improvements, especially around safety, clarity, and alignment.";
      "Respond in three sections: SYSTEM PROMPT, PLAN, RATIONALE." ].

(** [block.type === 'text' && typeof block.text === 'string'] *)
Definition is_text_block (b : ContentBlock) : bool :=
  String.eqb (block_type b) "text"
  && match block_text b with Some _ => true | None => false end.

Definition text_of (b : ContentBlock) : string :=
  match block_text b with Some t => t | None => "" end.

(** [message.content?.filter(...).map(...).join('\n') ?? ''] *)
Definition message_text (m : Message) : string :=
  match content m with
  | Some blocks => join nl (map text_of (filter is_text_block blocks))
  | None => ""
  end.

Definition planWithAnthropic (env : Env) (task : string)
  : Async (option PlanResult) :=
  match env_value (ANTHROPIC_API_KEY env) with
  | None => ret None
  | Some apiKey =>
      try_catch
        (msg <- await (anthropic_create env apiKey anthropic_sys (user_text task)) ;;
         let content := message_text msg in
         ret (Some {| provider := claude_provider;
                      systemPrompt := content;
                      plan := content;
                      rationale := "Claude-style critique via Anthropic API." |}))
        (fun err =>
           if is_Error err && includes "Cannot find module" (message err)
           then ret None
           else console_error "Anthropic API error (falling back):" err ;;;
                ret None)
  end.

(** *** Stage 2: the HTTP service *)

Definition http_rationale : string :=
  "Claude-style critique via external HTTP service.".

(** [result.key] as used under [||]: falsy values read as the empty
    string; the first entry for a key is the property. *)
Fixpoint prop (props : list (string * FieldValue)) (key : string) : string :=
  match props with
  | [] => ""
  | (k, v) :: rest =>
      if String.eqb k key
      then match v with FString s => s | FFalsy => "" end
      else prop rest key
  end.

(** The body of the ['end'] handler: the value the promise resolves to. *)
Definition on_end (env : Env) (data : string) : PlanResult :=
  let plain :=
    {| provider := claude_provider;
       systemPrompt := data;
       plan := data;
       rationale := http_rationale |} in
  match JSON_parse env data with
  | Some (JsonProps result) =>
      {| provider := claude_provider;
         systemPrompt :=
           or_else (prop result "systemPrompt") (or_else (prop result "content") data);
         plan := or_else (prop result "plan") (or_else (prop result "content") data);
         rationale := or_else (prop result "rationale") http_rationale |}
  | Some JsonNull => plain    (* the property read throws inside the try *)
  | None => plain             (* the response is not JSON *)
  end.

(** A failing [new URL] is caught and logged inside the function; a
    request error rejects the promise the function has already returned,
    so it reaches the caller. *)
Definition planWithHttpService (env : Env) (task : string)
  : Async (option PlanResult) :=
  match env_value (CLAUDE_FLOW_URL env) with
  | None => ret None
  | Some url =>
      match http_post env url task with
      | UrlRejected err =>
          console_error "HTTP service error (falling back):" err ;;;
          ret None
      | RequestFailed err => throw err
      | Responded data => ret (Some (on_end env data))
      end
  end.

(** *** Stage 3: the CLI command *)

Definition dquote : ascii := ascii_of_nat 34.
Definition backslash : ascii := ascii_of_nat 92.

(** [task.replace(/"/g, '\\"')] *)
Fixpoint escape_quotes (s : string) : string :=
  match s with
  | String c s' =>
      if Ascii.eqb c dquote
      then String backslash (String dquote (escape_quotes s'))
      else String c (escape_quotes s')
  | EmptyString => EmptyString
  end.

Definition cli_command (cmd task : string) : string :=
  cmd ++ " " ++ String dquote (escape_quotes task) ++ String dquote "".

Definition planWithCliCommand (env : Env) (task : string)
  : Async (option PlanResult) :=
  match env_value (CLAUDE_FLOW_CMD env) with
  | None => ret None
  | Some cmd =>
      try_catch
        (out <- await (exec_shell env (cli_command cmd task)) ;;
         let content := or_else (trim (fst out)) (trim (snd out)) in
         if negb (truthy content)
         then ret None
         else ret (Some {| provider := claude_provider;
                           systemPrompt := content;
                           plan := content;
                           rationale :=
                             "Claude-style critique via external CLI command." |}))
        (fun err =>
           console_error "CLI command error (falling back):" err ;;;
           ret None)
  end.

(** *** Stage 4: the OpenAI fallback *)

Definition stub : PlanResult :=
  {| provider := claude_provider;
     systemPrompt :=
       "Claude-Flow stub: no API keys configured. Set ANTHROPIC_API_KEY, CLAUDE_FLOW_URL, CLAUDE_FLOW_CMD, or OPENAI_API_KEY.";
     plan := "Treat this as a placeholder until real Claude integration is wired.";
     rationale := "Stub response generated locally." |}.

Definition openai_sys : string :=
  join " "
    [ "You are Claude-Flow, a cautious and reflective co-orchestrator.";
      "Your job is to critique Codex-Flow's plan, catch failure modes,";
      "and propose improvements, especially around safety, clarity, and evals.";
      "Respond in three sections: SYSTEM PROMPT, PLAN, RATIONALE." ].

Definition planWithOpenAIFallback (env : Env) (task : string)
  : Async PlanResult :=
  match env_value (OPENAI_API_KEY env) with
  | None => ret stub
  | Some apiKey =>
      res <- await (openai_create env apiKey openai_sys (user_text task)) ;;
      let content := match res with Some c => c | None => "" end in
      ret {| provider := claude_provider;
             systemPrompt := content;
             plan := content;
             rationale :=
               "Claude-style critique synthesized via OpenAI (fallback mode)." |}
  end.

(** *** The chain *)

Definition claudePlan (env : Env) (task : string) : Async PlanResult :=
  anthropicResult <- planWithAnthropic env task ;;
  match anthropicResult with
  | Some r => ret r
  | None =>
      httpResult <- try_catch (planWithHttpService env task)
                              (fun _ => ret None) ;;
      match httpResult with
      | Some r => ret r
      | None =>
          cliResult <- try_catch (planWithCliCommand env task)
                                 (fun _ => ret None) ;;
          match cliResult with
          | Some r => ret r
          | None => planWithOpenAIFallback env task
          end
      end
  end.

End ClaudePlanner.

(* ===================================================================== *)
(** ** Sample environments                                                *)
(* ===================================================================== *)

Module Samples.
Import Js ClaudePlanner.

Definition boom (msg : string) : JsError := mkError true msg.


(** Direct API configured and answering without any text block; HTTP
    service configured and answering with plain text. *)
Definition silent_api_env : Env :=
  {| ANTHROPIC_API_KEY := Some "sk-ant-test";
     CLAUDE_FLOW_URL := Some "http://localhost:3000/plan";
     CLAUDE_FLOW_CMD := None;
     OPENAI_API_KEY := None;
     anthropic_create := fun _ _ _ => Returned (mkMessage (Some []));
     http_post := fun _ _ => Responded "Ensure inputs are validated.";
     JSON_parse := fun _ => None;
     exec_shell := fun _ => Thrown (boom "Command failed");
     openai_create := fun _ _ _ => Thrown (boom "connect ECONNREFUSED") |}.

(** Only the OpenAI key is set and the completion carries no content. *)
Definition silent_openai_env : Env :=
  {| ANTHROPIC_API_KEY := None;
     CLAUDE_FLOW_URL := None;
     CLAUDE_FLOW_CMD := None;
     OPENAI_API_KEY := Some "sk-test";
     anthropic_create := fun _ _ _ => Thrown (boom "connect ECONNREFUSED");
     http_post := fun _ _ => RequestFailed (boom "connect ECONNREFUSED");
     JSON_parse := fun _ => None;
     exec_shell := fun _ => Thrown (boom "Command failed");
     openai_create := fun _ _ _ => Returned None |}.

(** The three optional transports are configured and all of them fail;
    no OpenAI key. *)
Definition all_failing_env : Env :=
  {| ANTHROPIC_API_KEY := Some "sk-ant-test";
     CLAUDE_FLOW_URL := Some "http://localhost:3000/plan";
     CLAUDE_FLOW_CMD := Some "claude-flow";
     OPENAI_API_KEY := None;
     anthropic_create := fun _ _ _ => Thrown (boom "529 overloaded");
     http_post := fun _ _ => RequestFailed (boom "connect ECONNREFUSED");
     JSON_parse := fun _ => None;
     exec_shell := fun _ => Thrown (boom "Command failed: exit code 1");
     openai_create := fun _ _ _ => Thrown (boom "connect ECONNREFUSED") |}.

(** The direct API is configured and fails; the HTTP service and the CLI
    command both answer. *)
Definition api_down_env : Env :=
  {| ANTHROPIC_API_KEY := Some "sk-ant-test";
     CLAUDE_FLOW_URL := Some "http://localhost:3000/plan";
     CLAUDE_FLOW_CMD := Some "claude-flow";
     OPENAI_API_KEY := Some "sk-test";
     anthropic_create := fun _ _ _ => Thrown (boom "529 overloaded");
     http_post := fun _ _ => Responded "Ensure inputs are validated.";
     JSON_parse := fun _ => None;
     exec_shell := fun _ => Returned ("Plan from the CLI.", "");
     openai_create := fun _ _ _ => Returned (Some "Plan from OpenAI.") |}.

(** HTTP service answering with the empty JSON object. *)
Definition json_http_env : Env :=
  {| ANTHROPIC_API_KEY := None;
     CLAUDE_FLOW_URL := Some "https://flow.example/plan";
     CLAUDE_FLOW_CMD := None;
     OPENAI_API_KEY := None;
     anthropic_create := fun _ _ _ => Thrown (boom "connect ECONNREFUSED");
     http_post := fun _ _ => Responded "{}";
     JSON_parse :=
       fun data => if String.eqb data "{}" then Some (JsonProps []) else None;
     exec_shell := fun _ => Thrown (boom "Command failed");
     openai_create := fun _ _ _ => Thrown (boom "connect ECONNREFUSED") |}.

End Samples.

(* ===================================================================== *)
(** ** Properties of the fallback chain                                   *)
(* ===================================================================== *)

Module ChainFacts.
Import Js ClaudePlanner Samples.

(** What a stage hands over when its call succeeds. *)
Definition anthropic_result (m : Message) : PlanResult :=
  {| provider := claude_provider;
     systemPrompt := message_text m;
     plan := message_text m;
     rationale := "Claude-style critique via Anthropic API." |}.

Definition cli_result (text : string) : PlanResult :=
  {| provider := claude_provider;
     systemPrompt := text;
     plan := text;
     rationale := "Claude-style critique via external CLI command." |}.

Definition openai_result (res : option string) : PlanResult :=
  let content := match res with Some c => c | None => "" end in
  {| provider := claude_provider;
     systemPrompt := content;
     plan := content;
     rationale :=
       "Claude-style critique synthesized via OpenAI (fallback mode)." |}.

(** The four transports, in the order of the chain. *)
Inductive Transport : Type :=
| DirectApi | HttpService | CliCommand | OpenAIFallback.

(** The transport is configured and its call succeeds, with this result;
    the content of a result is its [systemPrompt]. *)
Definition succeeds (env : Env) (task : string) (t : Transport)
  : option PlanResult :=
  match t with
  | DirectApi =>
      match env_value (ANTHROPIC_API_KEY env) with
      | Some k =>
          match anthropic_create env k anthropic_sys (user_text task) with
          | Returned m => Some (anthropic_result m)
          | Thrown _ => None
          end
      | None => None
      end
  | HttpService =>
      match env_value (CLAUDE_FLOW_URL env) with
      | Some u =>
          match http_post env u task with
          | Responded data => Some (on_end env data)
          | _ => None
          end
      | None => None
      end
  | CliCommand =>
      match env_value (CLAUDE_FLOW_CMD env) with
      | Some c =>
          match exec_shell env (cli_command c task) with
          | Returned (out, err) =>
              Some (cli_result (or_else (trim out) (trim err)))
          | Thrown _ => None
          end
      | None => None
      end
  | OpenAIFallback =>
      match env_value (OPENAI_API_KEY env) with
      | Some k =>
          match openai_create env k openai_sys (user_text task) with
          | Returned res => Some (openai_result res)
          | Thrown _ => None
          end
      | None => None
      end
  end.

(** The transport is configured, succeeds and yields non-empty content. *)
Definition yields (env : Env) (task : string) (t : Transport)
  : option PlanResult :=
  match succeeds env task t with
  | Some r => if truthy (systemPrompt r) then Some r else None
  | None => None
  end.

(** The first transport of a list that yields. *)
Fixpoint first_yield (env : Env) (task : string) (ts : list Transport)
  : option PlanResult :=
  match ts with
  | [] => None
  | t :: rest =>
      match yields env task t with
      | Some r => Some r
      | None => first_yield env task rest
      end
  end.

(** What a stage hands to [claudePlan]: its result, or nothing when it
    resolved to [null] or rejected. *)
Definition handed (stage : Async (option PlanResult)) : option PlanResult :=
  match outcome stage with
  | Returned (Some r) => Some r
  | _ => None
  end.

(** Going on with the stages [stages], in this order, and with [last] when
    none of them hands over a result. *)
Fixpoint proceed (stages : list (Async (option PlanResult)))
    (last : Async PlanResult) : Outcome PlanResult :=
  match stages with
  | [] => outcome last
  | stage :: rest =>
      match handed stage with
      | Some r => Returned r
      | None => proceed rest last
      end
  end.

(** A transport failing on this task. *)
Definition anthropic_fails (env : Env) (task : string) : Prop :=
  exists apiKey e,
    env_value (ANTHROPIC_API_KEY env) = Some apiKey
    /\ anthropic_create env apiKey anthropic_sys (user_text task) = Thrown e.

Definition http_fails (env : Env) (task : string) : Prop :=
  exists url e,
    env_value (CLAUDE_FLOW_URL env) = Some url
    /\ (http_post env url task = UrlRejected e
        \/ http_post env url task = RequestFailed e).

Definition cli_fails (env : Env) (task : string) : Prop :=
  exists cmd e,
    env_value (CLAUDE_FLOW_CMD env) = Some cmd
    /\ exec_shell env (cli_command cmd task) = Thrown e.

(** A service answering with nothing in it. *)
Definition anthropic_answers_empty (env : Env) (task : string) : Prop :=
  exists apiKey msg,
    env_value (ANTHROPIC_API_KEY env) = Some apiKey
    /\ anthropic_create env apiKey anthropic_sys (user_text task) = Returned msg
    /\ message_text msg = "".

Definition http_answers_empty (env : Env) (task : string) : Prop :=
  exists url,
    env_value (CLAUDE_FLOW_URL env) = Some url
    /\ http_post env url task = Responded "".

Definition openai_answers_empty (env : Env) (task : string) : Prop :=
  exists apiKey res,
    env_value (OPENAI_API_KEY env) = Some apiKey
    /\ openai_create env apiKey openai_sys (user_text task) = Returned res
    /\ match res with Some c => c | None => "" end = "".

(** A JSON object without the property [key]. *)
Definition lacks (props : list (string * FieldValue)) (key : string) : Prop :=
  forall v, ~ In (key, v) props.

(** A JSON value without the property [key]; [null] has no property. *)
Definition json_lacks (v : JsonValue) (key : string) : Prop :=
  match v with
  | JsonNull => True
  | JsonProps props => lacks props key
  end.

End ChainFacts.

(* ===================================================================== *)
(** ** Vocabulary for the statements about the orchestrator               *)
(* ===================================================================== *)

Module TextFacts.
Import Js Regex Orchestrator.

(** [s] starts with [p], letters compared without case. *)
Fixpoint starts_ci (p s : string) : bool :=
  match p, s with
  | EmptyString, _ => true
  | String a p', String b s' =>
      Ascii.eqb (canon a) (canon b) && starts_ci p' s'
  | String _ _, EmptyString => false
  end.

(** Equality of two texts without case. *)
Fixpoint ci_eq (a b : string) : bool :=
  match a, b with
  | EmptyString, EmptyString => true
  | String x a', String y b' => Ascii.eqb (canon x) (canon y) && ci_eq a' b'
  | _, _ => false
  end.

(** The two labels of the system-prompt section, in any case. *)
Definition is_label (l : string) : bool :=
  ci_eq "SYSTEM PROMPT" l || ci_eq "SYSTEM" l.

(** A label with its colon at the front of [s]. *)
Definition label_at (s : string) : bool :=
  starts_ci "SYSTEM PROMPT:" s || starts_ci "SYSTEM:" s.

(** No line of [s] starts with a label: neither [s] itself nor the text
    after any of its line feeds. *)
Fixpoint no_label_after_lf (s : string) : bool :=
  match s with
  | EmptyString => true
  | String c s' =>
      (if Ascii.eqb c LF then negb (label_at s') else true)
      && no_label_after_lf s'
  end.

Definition no_label_line (s : string) : bool :=
  negb (label_at s) && no_label_after_lf s.

(** [s] is empty or ends in a line feed: what follows starts a line. *)
Fixpoint ends_line (s : string) : bool :=
  match s with
  | EmptyString => true
  | String c EmptyString => Ascii.eqb c LF
  | String _ s' => ends_line s'
  end.

Fixpoint all_space (s : string) : bool :=
  match s with
  | EmptyString => true
  | String c s' => is_space c && all_space s'
  end.

(** A section boundary at the front of [s]: a blank line, or a line that
    starts with the label PLAN or RATIONALE. *)
Definition boundary (s : string) : bool :=
  startsWith (nl ++ nl) s
  || starts_ci (nl ++ "PLAN:") s
  || starts_ci (nl ++ "RATIONALE:") s.

(** No boundary starts inside [t] when [tail] follows it. *)
Fixpoint no_boundary_in (t tail : string) : bool :=
  match t with
  | EmptyString => true
  | String _ t' => negb (boundary (t ++ tail)) && no_boundary_in t' tail
  end.

(** The section ends at the front of [s]: at a boundary or at the end of
    the input. *)
Definition ends_section (s : string) : bool :=
  boundary s || negb (truthy s).

(** The input of the section property: [pre], then a label line, white
    space [gap], the section text [String c body], then [tail]. *)
Definition sectioned (pre label gap : string) (c : ascii) (body tail : string)
  : string :=
  pre ++ label ++ ":" ++ gap ++ String c body ++ tail.

(** The label line is the first one of the input, and the section text
    starts with a visible character and runs up to the first boundary,
    where [tail] starts. *)
Definition first_section (pre label gap : string) (c : ascii)
  (body tail : string) : Prop :=
  ends_line pre = true
  /\ no_label_line pre = true
  /\ is_label label = true
  /\ all_space gap = true
  /\ is_space c = false
  /\ no_boundary_in body tail = true
  /\ ends_section tail = true.

(** Every way of the pattern binds group 1. *)
Fixpoint binds (r : re) : bool :=
  match r with
  | Cap _ => true
  | Seq r1 r2 => binds r1 || binds r2
  | Alt r1 r2 => binds r1 && binds r2
  | _ => false
  end.

(** A pattern without a capturing group. *)
Fixpoint cap_free (r : re) : bool :=
  match r with
  | Cap _ => false
  | Opt r1 => cap_free r1
  | Seq r1 r2 | Alt r1 r2 => cap_free r1 && cap_free r2
  | _ => true
  end.

(** A text with an empty line in it. *)
Definition has_blank_line (s : string) : bool :=
  existsb (fun l => negb (truthy l)) (split_lines s).

(** The literal entries of the notes array. *)
Definition is_heading (b : string) : bool :=
  String.eqb b "## System Prompt"
  || String.eqb b "## Plan"
  || String.eqb b "## Rationale".

Definition is_fixed_entry (b : string) : bool :=
  is_heading b
  || String.eqb b "# Codex Proposal"
  || String.eqb b "# Claude Proposal"
  || String.eqb b "---".

(** Some heading of [blocks] has no content after it: it is the last
    block, or the next block is again a heading, a title or the rule. *)
Fixpoint has_orphan_heading (blocks : list string) : bool :=
  match blocks with
  | [] => false
  | b :: rest =>
      (is_heading b
       && match rest with
          | [] => true
          | next :: _ => is_fixed_entry next
          end)
      || has_orphan_heading rest
  end.

(** A content block as it survives the filter. *)
Definition keep (b : string) : list string :=
  if truthy b then [b] else [].

(** The three content blocks of one proposal. *)
Definition prompt_block (r : PlanResult) : string :=
  extractSystemPrompt (systemPrompt r).

Definition plan_block (r : PlanResult) : string :=
  or_else (or_else (extractPlan (systemPrompt r)) (plan r)) "(see rationale)".

Definition rationale_block (r : PlanResult) : string :=
  or_else (or_else (extractRationale (systemPrompt r)) (rationale r))
          (rationale r).

(** One proposal of the notes after the filter. *)
Definition proposal (title : string) (r : PlanResult) : list string :=
  ([title; "## System Prompt"] ++ keep (prompt_block r)
   ++ ["## Plan"; plan_block r; "## Rationale"] ++ keep (rationale_block r))%list.

(** [s] without its first [n] characters. *)
Fixpoint drop (n : nat) (s : string) : string :=
  match n, s with
  | S n', String _ s' => drop n' s'
  | _, _ => s
  end.

(** A way with the text [p] consumed in front of it. *)
Definition prepend (p : string) (w : way) : way :=
  mkWay (p ++ consumed w) (group1 w) (rest w).

(** No character of [p] is a line feed, also after case folding. *)
Fixpoint lf_free (p : string) : bool :=
  match p with
  | EmptyString => true
  | String a p' => negb (Ascii.eqb (canon a) LF) && lf_free p'
  end.

(** The first way of a list, and the group text of the first way. *)
Definition heads (l : list way) (w : way) : Prop :=
  exists tl, l = w :: tl.

Definition first_group (l : list way) (g : string) : Prop :=
  exists w tl, l = w :: tl /\ group1 w = Some g.

(** [n] copies of a character. *)
Fixpoint repeat_char (c : ascii) (n : nat) : string :=
  match n with
  | 0 => EmptyString
  | S n' => String c (repeat_char c n')
  end.

(** The planner outputs of the example scenario. *)
Definition primary_raw : string :=
  "SYSTEM PROMPT:" ++ nl ++ "Build it carefully" ++ nl ++ nl
  ++ "PLAN:" ++ nl ++ "Step 1".

Definition secondary_raw : string :=
  "Consider edge cases." ++ nl ++ "Note potential race.".

(** A planner result with nothing in it. *)
Definition empty_result (p : Provider) : PlanResult :=
  {| provider := p; systemPrompt := ""; plan := ""; rationale := "" |}.

(** The primary planner's result in the example scenario. *)
Definition primary_result : PlanResult :=
  {| provider := codex_provider;
     systemPrompt := primary_raw;
     plan := primary_raw;
     rationale := "Codex-style implementation plan." |}.

(** What the Claude planner returns when the direct API answers without
    any text. *)
Definition silent_claude_result : PlanResult :=
  {| provider := claude_provider;
     systemPrompt := "";
     plan := "";
     rationale := "Claude-style critique via Anthropic API." |}.

(** A planner output whose rationale has two paragraphs. *)
Definition two_paragraph_result : PlanResult :=
  {| provider := codex_provider;
     systemPrompt :=
       "SYSTEM PROMPT:" ++ nl ++ "Be careful" ++ nl ++ nl
       ++ "RATIONALE:" ++ nl ++ "First reason." ++ nl ++ nl ++ "Second reason.";
     plan := "";
     rationale := "Codex-style implementation plan." |}.

(** A line of 199 letters, a space and 50 more letters. *)
Definition long_line : string :=
  repeat_char "a" 199 ++ " " ++ repeat_char "b" 50.

End TextFacts.

(* ===================================================================== *)
(** ** janus/src/index.ts                                                 *)
(* ===================================================================== *)

Module JanusMain.
Import Js Orchestrator ClaudePlanner.

Definition default_task : string :=
  "Design a cooperative multi-AI workflow for a GitHub repository.".

(** [args.includes('--json')] *)
Definition jsonMode (args : list string) : bool :=
  existsb (fun arg => String.eqb arg "--json") args.

(** [args.filter((arg) => arg !== '--json')] *)
Definition taskArgs (args : list string) : list string :=
  filter (fun arg => negb (String.eqb arg "--json")) args.

(** [taskArgs.join(' ') || '...'] *)
Definition task_of (args : list string) : string :=
  or_else (join " " (taskArgs args)) default_task.





End JanusMain.

(* ===================================================================== *)
(** ** Vocabulary for further statements                                  *)
(* ===================================================================== *)

Module MoreFacts.
Import Js Regex Orchestrator ClaudePlanner TextFacts.

(** The text has a line feed in it. *)
Fixpoint has_lf (s : string) : bool :=
  match s with
  | EmptyString => false
  | String c s' => Ascii.eqb c LF || has_lf s'
  end.

(** The text has a double quote in it. *)
Fixpoint has_quote (s : string) : bool :=
  match s with
  | EmptyString => false
  | String c s' => Ascii.eqb c dquote || has_quote s'
  end.

(** Every double quote of the text stands directly after a backslash. *)
Fixpoint quotes_escaped (after_backslash : bool) (s : string) : bool :=
  match s with
  | EmptyString => true
  | String c s' =>
      (negb (Ascii.eqb c dquote) || after_backslash)
      && quotes_escaped (Ascii.eqb c backslash) s'
  end.

(** No environment variable of the planner is set. *)
Definition unconfigured (env : Env) : Prop :=
  env_value (ANTHROPIC_API_KEY env) = None
  /\ env_value (CLAUDE_FLOW_URL env) = None
  /\ env_value (CLAUDE_FLOW_CMD env) = None
  /\ env_value (OPENAI_API_KEY env) = None.

(** Only the CLI command is configured; it prints nothing but a warning
    on standard error. *)
Definition cli_only_env : Env :=
  {| ANTHROPIC_API_KEY := None;
     CLAUDE_FLOW_URL := None;
     CLAUDE_FLOW_CMD := Some "claude-flow";
     OPENAI_API_KEY := None;
     anthropic_create := fun _ _ _ => Thrown (mkError true "unused");
     http_post := fun _ _ => RequestFailed (mkError true "unused");
     JSON_parse := fun _ => None;
     exec_shell := fun _ => Returned (" " ++ nl, " warning: slow ");
     openai_create := fun _ _ _ => Thrown (mkError true "unused") |}.

(** Variables set to the empty text, and services that would answer. *)
Definition empty_values_env : Env :=
  {| ANTHROPIC_API_KEY := Some "";
     CLAUDE_FLOW_URL := None;
     CLAUDE_FLOW_CMD := Some "";
     OPENAI_API_KEY := None;
     anthropic_create := fun _ _ _ => Returned (mkMessage None);
     http_post := fun _ _ => Responded "never asked";
     JSON_parse := fun _ => None;
     exec_shell := fun _ => Returned ("never run", "");
     openai_create := fun _ _ _ => Returned (Some "never asked") |}.

(** The error of a missing SDK module, which stage 1 passes over in
    silence. *)
Definition is_missing_module (e : JsError) : bool :=
  is_Error e && includes "Cannot find module" (message e).

(** The refinement lines of a core, joined as in [mergeSystemPrompts]. *)
Definition refinements (core : string) : string :=
  join "; " (filter is_refinement_line (split_lines core)).

(** A label of the list, with its colon, at the front of [s]. *)
Definition any_label_at (labels : list string) (s : string) : bool :=
  existsb (fun l => starts_ci (l ++ ":") s) labels.

(** No line of [s] starts with a label of the list. *)
Fixpoint no_labels_after_lf (labels : list string) (s : string) : bool :=
  match s with
  | EmptyString => true
  | String c s' =>
      (if Ascii.eqb c LF then negb (any_label_at labels s') else true)
      && no_labels_after_lf labels s'
  end.

Definition no_labelled_line (labels : list string) (s : string) : bool :=
  negb (any_label_at labels s) && no_labels_after_lf labels s.

(** The label alternatives of the three patterns, as written there. *)
Definition system_labels : list string :=
  ["SYSTEM PROMPT"; "System Prompt"; "SYSTEM"; "System"].
Definition plan_labels : list string :=
  ["PLAN"; "Plan"; "IMPLEMENTATION PLAN"; "Implementation Plan"].
Definition rationale_labels : list string :=
  ["RATIONALE"; "Rationale"; "REASONING"; "Reasoning"].

(** The labels that end a plan section. *)
Definition after_plan_labels : list string :=
  ["RATIONALE"; "Rationale"; "SYSTEM"; "System"].

(** The text is one of the labels, in any case. *)
Definition is_label_of (labels : list string) (l : string) : bool :=
  existsb (fun p => ci_eq p l) labels.

(** No character of the text is a colon. *)
Fixpoint colon_free (p : string) : bool :=
  match p with
  | EmptyString => true
  | String a p' => negb (Ascii.eqb (canon a) ":"%char) && colon_free p'
  end.

(** A boundary of a section whose next labels are [labels]: a blank line,
    or a line feed followed by one of the labels and a colon. *)
Definition boundary_of (labels : list string) (s : string) : bool :=
  startsWith (nl ++ nl) s
  || match s with
     | String c s' => Ascii.eqb c LF && any_label_at labels s'
     | EmptyString => false
     end.

Fixpoint no_boundary_of (labels : list string) (t tail : string) : bool :=
  match t with
  | EmptyString => true
  | String _ t' =>
      negb (boundary_of labels (t ++ tail)) && no_boundary_of labels t' tail
  end.

(** The common shape of the three patterns: a line start, one of the
    labels, a colon, white space, an optional line feed, the group and
    what ends it. *)
Definition section_tail (T : re) : re :=
  Seq (StarG Space) (Seq (Opt (Lit nl)) (Seq (Cap (PlusL Dot)) T)).

Definition labelled (labels : list string) (T : re) : re :=
  Seq line_start (Seq (alts labels) (Seq (Lit ":") (section_tail T))).

(** [(?:\n\n|\n(?:...):|$)] for the next labels [labels]. *)
Definition terminator_of (labels : list string) : re :=
  Alt (Lit (nl ++ nl))
 (Alt (Seq (Lit nl) (Seq (alts labels) (Lit ":"))) Eol).

(** The section ends at the front of [s]. *)
Definition ends_section_of (labels : list string) (s : string) : bool :=
  boundary_of labels s || negb (truthy s).

(** The text starts with a character that is not white space, whatever
    its case. *)
Definition visible_start (l : string) : bool :=
  match l with
  | String a _ => negb (is_space (canon a))
  | EmptyString => false
  end.

End MoreFacts.

(* ===================================================================== *)
(** ** The fallback chain: theorems                                       *)
(* ===================================================================== *)

Module ChainTheorems.
Import Js ClaudePlanner Samples ChainFacts.

(** The outcome of [bind] and of [try_catch], without the log. *)
Lemma outcome_bind {A B} (m : Async A) (k : A -> Async B) :
  outcome (bind m k)
  = match outcome m with
    | Returned a => outcome (k a)
    | Thrown e => Thrown e
    end.
Proof.
  destruct m as [l [a | e]]; simpl; [ | reflexivity ].
  unfold outcome. destruct (k a); reflexivity.
Qed.

Lemma outcome_try_catch {A} (m : Async A) (h : JsError -> Async A) :
  outcome (try_catch m h)
  = match outcome m with
    | Returned a => Returned a
    | Thrown e => outcome (h e)
    end.
Proof.
  destruct m as [l [a | e]]; simpl; [ reflexivity | ].
  unfold outcome. destruct (h e); reflexivity.
Qed.

(** What each stage hands over, read off the environment. *)
Lemma planWithAnthropic_outcome env task :
  outcome (planWithAnthropic env task)
  = match env_value (ANTHROPIC_API_KEY env) with
    | None => Returned None
    | Some k =>
        match anthropic_create env k anthropic_sys (user_text task) with
        | Returned m => Returned (Some (anthropic_result m))
        | Thrown _ => Returned None
        end
    end.
Proof.
  unfold planWithAnthropic.
  destruct (env_value (ANTHROPIC_API_KEY env)) as [k | ]; [ | reflexivity ].
  rewrite outcome_try_catch, outcome_bind. unfold await, outcome at 2. simpl.
  destruct (anthropic_create env k anthropic_sys (user_text task)) as [m | e].
  - reflexivity.
  - destruct (is_Error e && includes "Cannot find module" (message e));
      reflexivity.
Qed.

Lemma planWithHttpService_outcome env task :
  outcome (planWithHttpService env task)
  = match env_value (CLAUDE_FLOW_URL env) with
    | None => Returned None
    | Some u =>
        match http_post env u task with
        | UrlRejected _ => Returned None
        | RequestFailed e => Thrown e
        | Responded data => Returned (Some (on_end env data))
        end
    end.
Proof.
  unfold planWithHttpService.
  destruct (env_value (CLAUDE_FLOW_URL env)) as [u | ]; [ | reflexivity ].
  destruct (http_post env u task); reflexivity.
Qed.

Lemma planWithCliCommand_outcome env task :
  outcome (planWithCliCommand env task)
  = match env_value (CLAUDE_FLOW_CMD env) with
    | None => Returned None
    | Some c =>
        match exec_shell env (cli_command c task) with
        | Returned (out, err) =>
            if truthy (or_else (trim out) (trim err))
            then Returned (Some (cli_result (or_else (trim out) (trim err))))
            else Returned None
        | Thrown _ => Returned None
        end
    end.
Proof.
  unfold planWithCliCommand.
  destruct (env_value (CLAUDE_FLOW_CMD env)) as [c | ]; [ | reflexivity ].
  rewrite outcome_try_catch, outcome_bind. unfold await, outcome at 2. simpl.
  destruct (exec_shell env (cli_command c task)) as [[o e'] | e];
    [ | reflexivity ].
  simpl. destruct (truthy (or_else (trim o) (trim e'))); reflexivity.
Qed.

Lemma planWithOpenAIFallback_outcome env task :
  outcome (planWithOpenAIFallback env task)
  = match env_value (OPENAI_API_KEY env) with
    | None => Returned stub
    | Some k =>
        match openai_create env k openai_sys (user_text task) with
        | Returned res => Returned (openai_result res)
        | Thrown e => Thrown e
        end
    end.
Proof.
  unfold planWithOpenAIFallback.
  destruct (env_value (OPENAI_API_KEY env)) as [k | ]; [ | reflexivity ].
  rewrite outcome_bind. unfold await, outcome at 2. simpl.
  destruct (openai_create env k openai_sys (user_text task)); reflexivity.
Qed.

(** The outcome of the chain, stage by stage: the first stage that hands
    over a result decides; a stage handing over nothing or rejecting lets
    the next one run. *)
Lemma claudePlan_outcome env task :
  outcome (claudePlan env task)
  = match outcome (planWithAnthropic env task) with
    | Returned (Some r) => Returned r
    | _ =>
        match outcome (planWithHttpService env task) with
        | Returned (Some r) => Returned r
        | _ =>
            match outcome (planWithCliCommand env task) with
            | Returned (Some r) => Returned r
            | _ => outcome (planWithOpenAIFallback env task)
            end
        end
    end.
Proof.
  unfold claudePlan. rewrite outcome_bind.
  destruct (outcome (planWithAnthropic env task)) as [[r | ] | e] eqn:Ha;
    [ reflexivity | | ].
  - rewrite outcome_bind, outcome_try_catch.
    destruct (outcome (planWithHttpService env task)) as [[r | ] | e];
      simpl; try reflexivity;
      rewrite outcome_bind, outcome_try_catch;
      destruct (outcome (planWithCliCommand env task)) as [[r | ] | e'] eqn:Hc;
      try reflexivity;
      rewrite planWithCliCommand_outcome in Hc;
      destruct (env_value (CLAUDE_FLOW_CMD env)); try discriminate;
      destruct (exec_shell env _) as [[o x] | ]; try discriminate;
      destruct (truthy _); discriminate.
  - rewrite planWithAnthropic_outcome in Ha.
    destruct (env_value (ANTHROPIC_API_KEY env)); try discriminate.
    destruct (anthropic_create env _ _ _); discriminate.
Qed.


Lemma or_else_empty a b : or_else a b = "" -> b = "".
Proof.
  unfold or_else. destruct a; simpl; [ auto | discriminate ].
Qed.

Lemma prop_lacks props key : lacks props key -> prop props key = "".
Proof.
  induction props as [ | [k v] rest IH]; intros H; simpl; [ reflexivity | ].
  destruct (String.eqb k key) eqn:E.
  - apply String.eqb_eq in E. subst k. exfalso. apply (H v). now left.
  - apply IH. intros w Hw. apply (H w). now right.
Qed.

Lemma on_end_empty env data : systemPrompt (on_end env data) = "" -> data = "".
Proof.
  unfold on_end.
  destruct (JSON_parse env data) as [[ | props] | ]; simpl; auto.
  intros H. now apply or_else_empty, or_else_empty in H.
Qed.

(** The chain in terms of what each transport does. *)
Lemma claudePlan_by_transport env task :
  outcome (claudePlan env task)
  = match succeeds env task DirectApi with
    | Some r => Returned r
    | None =>
        match succeeds env task HttpService with
        | Some r => Returned r
        | None =>
            match yields env task CliCommand with
            | Some r => Returned r
            | None => outcome (planWithOpenAIFallback env task)
            end
        end
    end.
Proof.
  rewrite claudePlan_outcome, planWithAnthropic_outcome,
    planWithHttpService_outcome, planWithCliCommand_outcome.
  unfold yields, succeeds.
  destruct (env_value (ANTHROPIC_API_KEY env)) as [k | ];
    [ destruct (anthropic_create env k anthropic_sys (user_text task));
      [ reflexivity | ] | ];
    (destruct (env_value (CLAUDE_FLOW_URL env)) as [u | ];
     [ destruct (http_post env u task); [ | | reflexivity ] | ]);
    (destruct (env_value (CLAUDE_FLOW_CMD env)) as [c | ];
     [ destruct (exec_shell env (cli_command c task)) as [[o x] | ];
       [ cbn [systemPrompt cli_result];
         destruct (truthy (or_else (trim o) (trim x))) | ] | ]);
    reflexivity.
Qed.

Lemma truthy_false_empty s : truthy s = false -> s = "".
Proof. destruct s; [ reflexivity | discriminate ]. Qed.

(** A transport that succeeds with empty content is a service that
    answered with nothing; for the CLI nothing is claimed. *)
Lemma empty_answer env task t r :
  succeeds env task t = Some r -> systemPrompt r = "" ->
  match t with
  | DirectApi => anthropic_answers_empty env task
  | HttpService => http_answers_empty env task
  | CliCommand => True
  | OpenAIFallback => openai_answers_empty env task
  end.
Proof.
  destruct t; cbn [succeeds]; intros Hs He; [ | | exact I | ].
  - destruct (env_value (ANTHROPIC_API_KEY env)) as [k | ] eqn:Ek;
      [ | discriminate ].
    destruct (anthropic_create env k anthropic_sys (user_text task))
      as [m | ] eqn:Ec; [ | discriminate ].
    injection Hs as <-. now exists k, m.
  - destruct (env_value (CLAUDE_FLOW_URL env)) as [u | ] eqn:Eu;
      [ | discriminate ].
    destruct (http_post env u task) as [ | | data] eqn:Ep; try discriminate.
    injection Hs as <-. exists u. split; [ assumption | ].
    now rewrite (on_end_empty _ _ He) in Ep.
  - destruct (env_value (OPENAI_API_KEY env)) as [k | ] eqn:Ek;
      [ | discriminate ].
    destruct (openai_create env k openai_sys (user_text task))
      as [res | ] eqn:Ec; [ | discriminate ].
    injection Hs as <-. now exists k, res.
Qed.



(** Where the direct API answers without text and the HTTP service answers
    with text, the chain hands back the direct API's empty result. *)
Lemma claudePlan_keeps_empty_direct_api_result :
  outcome (claudePlan silent_api_env "Add logging")
  = Returned {| provider := claude_provider;
                systemPrompt := "";
                plan := "";
                rationale := "Claude-style critique via Anthropic API." |}
  /\ outcome (planWithHttpService silent_api_env "Add logging")
     = Returned (Some {| provider := claude_provider;
                         systemPrompt := "Ensure inputs are validated.";
                         plan := "Ensure inputs are validated.";
                         rationale := http_rationale |}).
Proof. split; reflexivity. Qed.

(** C1 as stated fails: with only the OpenAI key set and a completion
    without content, the OpenAI transport succeeds with empty content and
    its result is the one returned. *)
Lemma claudePlan_returns_empty_fallback_result :
  ~ (forall env task t r,
       succeeds env task t = Some r -> systemPrompt r = "" ->
       outcome (claudePlan env task) <> Returned r).
Proof.
  intros H.
  apply (H silent_openai_env "Add logging" OpenAIFallback
           (openai_result None)); reflexivity.
Qed.

(** C1, amended: the order direct API, HTTP service, CLI command, OpenAI
    fallback is fixed.  A direct-API result with content is returned
    whatever the HTTP service does.  Where neither the direct API nor the
    HTTP service answers with empty content, the result is that of the
    first of the three optional transports that is configured, succeeds
    and yields non-empty content; when there is none, it is whatever the
    OpenAI fallback produces, also when that content is empty. *)
Theorem claudePlan_first_yield env task :
  (forall r, yields env task DirectApi = Some r ->
             outcome (claudePlan env task) = Returned r)
  /\ (~ anthropic_answers_empty env task ->
      ~ http_answers_empty env task ->
      outcome (claudePlan env task)
      = match first_yield env task [DirectApi; HttpService; CliCommand] with
        | Some r => Returned r
        | None => outcome (planWithOpenAIFallback env task)
        end).
Proof.
  split.
  - intros r Hy. rewrite claudePlan_by_transport.
    unfold yields in Hy.
    destruct (succeeds env task DirectApi) as [r' | ]; [ | discriminate ].
    destruct (truthy (systemPrompt r')); now inversion Hy.
  - intros NA NH. rewrite claudePlan_by_transport.
    cbn [first_yield]. unfold yields.
    assert (A : forall r, succeeds env task DirectApi = Some r ->
                  truthy (systemPrompt r) = true).
    { intros r Hr. destruct (truthy (systemPrompt r)) eqn:E; [ reflexivity | ].
      exfalso. apply NA.
      exact (empty_answer _ _ DirectApi r Hr (truthy_false_empty _ E)). }
    assert (Hh : forall r, succeeds env task HttpService = Some r ->
                   truthy (systemPrompt r) = true).
    { intros r Hr. destruct (truthy (systemPrompt r)) eqn:E; [ reflexivity | ].
      exfalso. apply NH.
      exact (empty_answer _ _ HttpService r Hr (truthy_false_empty _ E)). }
    destruct (succeeds env task DirectApi) as [r | ];
      [ now rewrite (A r eq_refl) | ].
    destruct (succeeds env task HttpService) as [r | ];
      [ now rewrite (Hh r eq_refl) | ].
    destruct (succeeds env task CliCommand) as [r | ]; [ | reflexivity ].
    destruct (truthy (systemPrompt r)); reflexivity.
Qed.

(** The amended C1 where the direct API is not configured and the HTTP
    service answers: the HTTP result is returned. *)
Lemma claudePlan_first_yield_witness :
  outcome (claudePlan json_http_env "Add logging")
  = Returned {| provider := claude_provider;
                systemPrompt := "{}";
                plan := "{}";
                rationale := http_rationale |}.
Proof.
  rewrite (proj2 (claudePlan_first_yield json_http_env "Add logging")).
  - reflexivity.
  - intros (k & m & Hk & _). discriminate Hk.
  - intros (u & Hu & Hp). discriminate Hp.
Defined.




(** C4: a failure of one of the first three transports never reaches the
    caller of [claudePlan], and the chain goes on with the next stage.  An
    exception the caller sees is the one the final OpenAI call raised
    itself.  When the direct API throws, [planWithAnthropic] resolves to
    [null] and the outcome is that of going on with the HTTP service, then
    the CLI command, then the final OpenAI fallback.  When the HTTP service
    fails, after the direct API handed over nothing, the HTTP stage hands
    over nothing and the outcome is that of going on with the CLI command,
    then the final fallback.  When the CLI command fails, after the first
    two stages handed over nothing, [planWithCliCommand] resolves to [null]
    and the outcome is that of the final fallback. *)
Theorem claudePlan_absorbs_transport_failures env task :
  (forall e, outcome (claudePlan env task) = Thrown e ->
     exists apiKey,
       env_value (OPENAI_API_KEY env) = Some apiKey
       /\ openai_create env apiKey openai_sys (user_text task) = Thrown e)
  /\ (anthropic_fails env task ->
      outcome (planWithAnthropic env task) = Returned None
      /\ outcome (claudePlan env task)
         = proceed [planWithHttpService env task; planWithCliCommand env task]
                   (planWithOpenAIFallback env task))
  /\ (http_fails env task ->
      handed (planWithAnthropic env task) = None ->
      handed (planWithHttpService env task) = None
      /\ outcome (claudePlan env task)
         = proceed [planWithCliCommand env task]
                   (planWithOpenAIFallback env task))
  /\ (cli_fails env task ->
      handed (planWithAnthropic env task) = None ->
      handed (planWithHttpService env task) = None ->
      outcome (planWithCliCommand env task) = Returned None
      /\ outcome (claudePlan env task)
         = outcome (planWithOpenAIFallback env task)).
Proof.
  split; [ | split; [ | split ] ].
  - intros e. rewrite claudePlan_outcome.
    destruct (outcome (planWithAnthropic env task)) as [[r | ] | ?];
      try discriminate;
      destruct (outcome (planWithHttpService env task)) as [[r | ] | ?];
      try discriminate;
      destruct (outcome (planWithCliCommand env task)) as [[r | ] | ?];
      try discriminate;
      rewrite planWithOpenAIFallback_outcome;
      (destruct (env_value (OPENAI_API_KEY env)) as [k | ];
       [ | discriminate ]);
      (destruct (openai_create env k openai_sys (user_text task)) eqn:Eo;
       [ discriminate | ]);
      intros [= <-]; exists k; now split.
  - intros (k & e & Hk & Hc).
    assert (Ha : outcome (planWithAnthropic env task) = Returned None)
      by now rewrite planWithAnthropic_outcome, Hk, Hc.
    split; [ exact Ha | ].
    rewrite claudePlan_outcome, Ha. cbn [proceed]. unfold handed.
    destruct (outcome (planWithHttpService env task)) as [[r | ] | ?];
      try reflexivity;
      destruct (outcome (planWithCliCommand env task)) as [[r | ] | ?];
      reflexivity.
  - intros (u & e & Hu & Hp) Ha.
    assert (Hh : handed (planWithHttpService env task) = None).
    { unfold handed. rewrite planWithHttpService_outcome, Hu.
      destruct Hp as [Hp | Hp]; now rewrite Hp. }
    split; [ exact Hh | ].
    rewrite claudePlan_outcome. cbn [proceed].
    unfold handed in Ha, Hh |- *.
    destruct (outcome (planWithAnthropic env task)) as [[r | ] | ?];
      try discriminate;
      destruct (outcome (planWithHttpService env task)) as [[r | ] | ?];
      try discriminate;
      destruct (outcome (planWithCliCommand env task)) as [[r | ] | ?];
      reflexivity.
  - intros (c & e & Hc & Hx) Ha Hh.
    assert (Hcli : outcome (planWithCliCommand env task) = Returned None)
      by now rewrite planWithCliCommand_outcome, Hc, Hx.
    split; [ exact Hcli | ].
    rewrite claudePlan_outcome, Hcli. unfold handed in Ha, Hh.
    destruct (outcome (planWithAnthropic env task)) as [[r | ] | ?];
      try discriminate;
      destruct (outcome (planWithHttpService env task)) as [[r | ] | ?];
      try discriminate; reflexivity.
Qed.

(** C4 at two environments.  Where the three optional transports are
    configured and all fail and no OpenAI key is set, the caller gets the
    stub, no exception.  Where the direct API fails and the HTTP service
    answers, the caller gets the HTTP service's answer. *)
Lemma claudePlan_absorbs_transport_failures_witness :
  (anthropic_fails all_failing_env "Add logging"
   /\ http_fails all_failing_env "Add logging"
   /\ cli_fails all_failing_env "Add logging"
   /\ outcome (claudePlan all_failing_env "Add logging") = Returned stub)
  /\ (anthropic_fails api_down_env "Add logging"
      /\ outcome (claudePlan api_down_env "Add logging")
         = Returned (on_end api_down_env "Ensure inputs are validated.")).
Proof.
  assert (A : anthropic_fails all_failing_env "Add logging").
  { exists "sk-ant-test", (boom "529 overloaded"). split; reflexivity. }
  assert (H : http_fails all_failing_env "Add logging").
  { exists "http://localhost:3000/plan", (boom "connect ECONNREFUSED").
    split; [ reflexivity | right; reflexivity ]. }
  assert (C : cli_fails all_failing_env "Add logging").
  { exists "claude-flow", (boom "Command failed: exit code 1").
    split; reflexivity. }
  assert (D : anthropic_fails api_down_env "Add logging").
  { exists "sk-ant-test", (boom "529 overloaded"). split; reflexivity. }
  destruct (claudePlan_absorbs_transport_failures all_failing_env
              "Add logging") as (_ & _ & _ & TC).
  destruct (claudePlan_absorbs_transport_failures api_down_env
              "Add logging") as (_ & TA & _ & _).
  refine (conj (conj A (conj H (conj C _))) (conj D _)).
  - exact (eq_trans (proj2 (TC C eq_refl eq_refl)) eq_refl).
  - exact (eq_trans (proj2 (TA D)) eq_refl).
Defined.

(** C10: with the HTTP transport configured and a response completed,
    [planWithHttpService] resolves to a result, never to [null].  When the
    body parses as JSON without a [systemPrompt] and a [content] property,
    the raw body is the [systemPrompt], and the [plan] too when there is no
    [plan] property, as when the body is not JSON at all. *)
Theorem planWithHttpService_uses_raw_body env task url data :
  env_value (CLAUDE_FLOW_URL env) = Some url ->
  http_post env url task = Responded data ->
  exists r,
    planWithHttpService env task = ret (Some r)
    /\ (forall v,
          JSON_parse env data = Some v ->
          json_lacks v "systemPrompt" -> json_lacks v "content" ->
          systemPrompt r = data /\ (json_lacks v "plan" -> plan r = data))
    /\ (JSON_parse env data = None ->
        systemPrompt r = data /\ plan r = data).
Proof.
  intros Hu Hp. exists (on_end env data). split; [ | split ].
  - unfold planWithHttpService. now rewrite Hu, Hp.
  - intros v Hv Hs Hc. unfold on_end. rewrite Hv.
    destruct v as [ | props]; cbn [systemPrompt plan].
    + now split.
    + cbn [json_lacks] in Hs, Hc.
      rewrite (prop_lacks _ _ Hs), (prop_lacks _ _ Hc). split; [ reflexivity | ].
      intros Hl. cbn [json_lacks] in Hl. now rewrite (prop_lacks _ _ Hl).
  - intros Hn. unfold on_end. rewrite Hn. now split.
Qed.

(** C10 at a service that answers with the empty JSON object. *)
Lemma planWithHttpService_uses_raw_body_witness :
  exists r,
    planWithHttpService json_http_env "Add logging" = ret (Some r)
    /\ systemPrompt r = "{}"
    /\ plan r = "{}".
Proof.
  destruct (planWithHttpService_uses_raw_body json_http_env "Add logging"
              "https://flow.example/plan" "{}" eq_refl eq_refl)
    as (r & Hr & Hjson & _).
  exists r.
  assert (L : forall key, json_lacks (JsonProps []) key)
    by (intros key v []).
  destruct (Hjson _ eq_refl (L "systemPrompt") (L "content")) as [Hs Hplan].
  repeat split; try assumption.
  apply Hplan, L.
Defined.

End ChainTheorems.

(* ===================================================================== *)
(** ** The merge protocol: theorems                                       *)
(* ===================================================================== *)

Module MergeTheorems.
Import Js Regex Orchestrator TextFacts.

(** The two cores of the example scenario: the labelled section of the
    primary output, and the lines of the secondary output joined by
    spaces. *)
Example primary_core : extractSystemPrompt primary_raw = "Build it carefully".
Proof. reflexivity. Qed.

Example secondary_core :
  extractSystemPrompt secondary_raw
  = "Consider edge cases. Note potential race."
  /\ split_lines "Consider edge cases. Note potential race."
     = ["Consider edge cases. Note potential race."].
Proof. split; reflexivity. Qed.

(** C2 as stated fails: the considerations are not lower-cased and not
    joined by a semicolon. *)
Lemma example_mergedPrompt_is_not_as_stated :
  mergedPrompt
    (planWithJanus "Add logging"
       (mkPlanResult codex_provider primary_raw "" "")
       (mkPlanResult claude_provider secondary_raw "" ""))
  <> "Task: Add logging" ++ nl ++ "Approach: Build it carefully" ++ nl
     ++ "Considerations: consider edge cases.; note potential race.".
Proof. vm_compute. discriminate. Qed.

(** C2, amended: in the example scenario the merged prompt ends in
    "Considerations: Consider edge cases. Note potential race.", the first
    three non-blank lines of the secondary output joined by spaces with
    their casing kept, whatever the other fields of the two results. *)
Theorem example_mergedPrompt
  (plan1 rationale1 plan2 rationale2 : string) :
  mergedPrompt
    (planWithJanus "Add logging"
       (mkPlanResult codex_provider primary_raw plan1 rationale1)
       (mkPlanResult claude_provider secondary_raw plan2 rationale2))
  = "Task: Add logging" ++ nl ++ "Approach: Build it carefully" ++ nl
    ++ "Considerations: Consider edge cases. Note potential race.".
Proof. vm_compute. reflexivity. Qed.

Lemma extractSystemPrompt_empty : extractSystemPrompt "" = "".
Proof. reflexivity. Qed.

(** With both cores empty only the task line is collected, and the
    fallback text is returned. *)
Lemma mergeSystemPrompts_empty_cores task codexPrompt claudePrompt :
  extractSystemPrompt codexPrompt = "" ->
  extractSystemPrompt claudePrompt = "" ->
  mergeSystemPrompts task codexPrompt claudePrompt
  = task ++ nl ++ nl ++ default_phrase.
Proof.
  intros H1 H2. unfold mergeSystemPrompts. rewrite H1, H2. reflexivity.
Qed.

(** C8: when the system-prompt sections extracted from both planner
    outputs are empty, the merged prompt is the task, a blank line and the
    default phrase. *)
Theorem mergedPrompt_of_empty_sections task codexR claudeR :
  extractSystemPrompt (systemPrompt codexR) = "" ->
  extractSystemPrompt (systemPrompt claudeR) = "" ->
  mergedPrompt (planWithJanus task codexR claudeR)
  = task ++ nl ++ nl ++ "Execute the task with precision and clarity.".
Proof.
  intros H1 H2. unfold planWithJanus, mergedPrompt. rewrite H1, H2.
  apply mergeSystemPrompts_empty_cores; apply extractSystemPrompt_empty.
Qed.

(** C8 for a primary output that is empty and a secondary output that is
    blank. *)
Lemma mergedPrompt_of_empty_sections_witness :
  mergedPrompt
    (planWithJanus "Add logging"
       (empty_result codex_provider)
       (mkPlanResult claude_provider ("  " ++ nl ++ " ") "" ""))
  = "Add logging" ++ nl ++ nl
    ++ "Execute the task with precision and clarity.".
Proof.
  apply (mergedPrompt_of_empty_sections "Add logging"); reflexivity.
Defined.

(** *** The reference notes *)

Lemma truthy_eqb_empty b : negb (String.eqb b "") = truthy b.
Proof. destruct b; reflexivity. Qed.

Lemma truthy_nonempty b : truthy b = true <-> b <> "".
Proof. destruct b; simpl; split; congruence. Qed.

(** The filter keeps an entry exactly when it is not empty. *)
Lemma filter_keep b rest :
  filter (fun line => negb (String.eqb line "")) (b :: rest)
  = (keep b ++ filter (fun line => negb (String.eqb line "")) rest)%list.
Proof.
  simpl. unfold keep. rewrite truthy_eqb_empty. destruct (truthy b); reflexivity.
Qed.

Lemma or_else_default_nonempty a d : d <> "" -> or_else a d <> "".
Proof. unfold or_else. destruct a; simpl; [ auto | discriminate ]. Qed.

Lemma plan_block_nonempty r : plan_block r <> "".
Proof. apply or_else_default_nonempty. discriminate. Qed.

Lemma keep_plan_block r : keep (plan_block r) = [plan_block r].
Proof.
  unfold keep. destruct (truthy (plan_block r)) eqn:E; [ reflexivity | ].
  exfalso. apply (plan_block_nonempty r). now destruct (plan_block r).
Qed.

(** What is left of the notes array after the filter. *)
Lemma kept_blocks_proposals codexR claudeR :
  kept_blocks codexR claudeR
  = (proposal "# Codex Proposal" codexR ++ ["---"]
     ++ proposal "# Claude Proposal" claudeR)%list.
Proof.
  unfold kept_blocks, notes_blocks.
  repeat rewrite filter_keep.
  fold (prompt_block codexR) (prompt_block claudeR)
       (plan_block codexR) (plan_block claudeR)
       (rationale_block codexR) (rationale_block claudeR).
  rewrite !keep_plan_block. unfold proposal. simpl.
  rewrite app_nil_r. repeat (rewrite <- app_assoc; simpl). reflexivity.
Qed.

Lemma kept_blocks_nonempty codexR claudeR :
  Forall (fun b => b <> "") (kept_blocks codexR claudeR).
Proof.
  unfold kept_blocks. apply Forall_forall. intros b Hb.
  apply filter_In in Hb. destruct Hb as [_ Hb].
  rewrite truthy_eqb_empty in Hb. now apply truthy_nonempty.
Qed.

(** C5 as stated fails: when the Claude planner's output is empty, the
    heading "## System Prompt" of its proposal stays in the notes and the
    heading "## Plan" follows it directly. *)
Lemma notes_keep_headings_without_content :
  kept_blocks primary_result silent_claude_result
  = [ "# Codex Proposal"; "## System Prompt"; "Build it carefully";
      "## Plan"; "Step 1";
      "## Rationale"; "Codex-style implementation plan."; "---";
      "# Claude Proposal"; "## System Prompt"; "## Plan"; "(see rationale)";
      "## Rationale"; "Claude-style critique via Anthropic API." ]
  /\ ~ (forall codexR claudeR,
          has_orphan_heading (kept_blocks codexR claudeR) = false).
Proof.
  split; [ reflexivity | ].
  intros H. specialize (H primary_result silent_claude_result).
  discriminate H.
Qed.

(** C5, amended: every content block that is exactly empty is dropped
    before the join, so no block of the notes is empty; the headings are
    literal entries and always stay, with or without content after them;
    only the "## Plan" heading is always followed by content, the
    placeholder at least. *)
Theorem notes_drop_empty_content_only task codexR claudeR :
  mergedNotes (planWithJanus task codexR claudeR)
  = join nl (kept_blocks codexR claudeR)
  /\ kept_blocks codexR claudeR
     = (proposal "# Codex Proposal" codexR ++ ["---"]
        ++ proposal "# Claude Proposal" claudeR)%list
  /\ Forall (fun b => b <> "") (kept_blocks codexR claudeR)
  /\ plan_block codexR <> "" /\ plan_block claudeR <> "".
Proof.
  split; [ reflexivity | ].
  split; [ apply kept_blocks_proposals | ].
  split; [ apply kept_blocks_nonempty | ].
  split; apply plan_block_nonempty.
Qed.

(** *** Lines of the joined notes *)

Lemma split_lines_not_nil s : split_lines s <> [].
Proof.
  destruct s as [ | c s]; simpl; [ discriminate | ].
  destruct (Ascii.eqb c LF); [ discriminate | ].
  destruct (split_lines s); discriminate.
Qed.

Lemma split_lines_app a b :
  split_lines (a ++ nl ++ b) = (split_lines a ++ split_lines b)%list.
Proof.
  change (nl ++ b) with (String LF b).
  induction a as [ | c a IH]; simpl.
  - reflexivity.
  - destruct (Ascii.eqb c LF).
    + now rewrite IH.
    + rewrite IH. pose proof (split_lines_not_nil a) as Hn.
      destruct (split_lines a); [ contradiction | reflexivity ].
Qed.

Lemma split_lines_join blocks :
  blocks <> [] ->
  split_lines (join nl blocks) = flat_map split_lines blocks.
Proof.
  induction blocks as [ | b rest IH]; intros H; [ contradiction | ].
  destruct rest as [ | b' rest].
  - simpl. now rewrite app_nil_r.
  - change (join nl (b :: b' :: rest)) with (b ++ nl ++ join nl (b' :: rest)).
    rewrite split_lines_app, IH by discriminate. reflexivity.
Qed.

Lemma existsb_flat_map {A B} (p : B -> bool) (g : A -> list B) l :
  existsb p (flat_map g l) = existsb (fun a => existsb p (g a)) l.
Proof.
  induction l as [ | a l IH]; simpl; [ reflexivity | ].
  now rewrite existsb_app, IH.
Qed.

Lemma has_blank_line_join blocks :
  blocks <> [] ->
  has_blank_line (join nl blocks) = existsb has_blank_line blocks.
Proof.
  intros H. unfold has_blank_line at 1.
  rewrite split_lines_join by assumption. apply existsb_flat_map.
Qed.

Lemma kept_blocks_not_nil codexR claudeR : kept_blocks codexR claudeR <> [].
Proof. rewrite kept_blocks_proposals. discriminate. Qed.

(** A block without a line feed is a line of the joined text. *)
Lemma line_of_join b blocks :
  In b blocks -> split_lines b = [b] -> In b (split_lines (join nl blocks)).
Proof.
  intros Hin Hb. rewrite split_lines_join by (destruct blocks; [ destruct Hin | discriminate ]).
  apply in_flat_map. exists b. split; [ assumption | ].
  rewrite Hb. now left.
Qed.

(** C9 as stated fails: a rationale of two paragraphs is one block, and
    its blank line is in the notes. *)
Lemma notes_can_contain_blank_line :
  ~ (forall task codexR claudeR,
       has_blank_line (mergedNotes (planWithJanus task codexR claudeR))
       = false).
Proof.
  intros H.
  specialize (H "Add logging" two_paragraph_result silent_claude_result).
  vm_compute in H. discriminate H.
Qed.

(** C9, amended: the notes always have the lines "# Codex Proposal",
    "# Claude Proposal" and "---"; every empty entry of the block sequence,
    the spacers included, is filtered out before the join with single line
    feeds, so no block of the notes is empty; a blank line is in the notes
    only when a block has one inside its own text. *)
Theorem notes_have_titles_and_no_empty_block task codexR claudeR :
  let notes := mergedNotes (planWithJanus task codexR claudeR) in
  notes = join nl (filter (fun line => negb (String.eqb line ""))
                          (notes_blocks codexR claudeR))
  /\ In "# Codex Proposal" (split_lines notes)
  /\ In "# Claude Proposal" (split_lines notes)
  /\ In "---" (split_lines notes)
  /\ Forall (fun b => b <> "") (kept_blocks codexR claudeR)
  /\ (forallb (fun b => negb (has_blank_line b)) (kept_blocks codexR claudeR)
      = true -> has_blank_line notes = false).
Proof.
  cbv zeta. unfold planWithJanus, mergedNotes.
  split; [ reflexivity | ].
  assert (T : forall b, In b ["# Codex Proposal"; "# Claude Proposal"; "---"] ->
                In b (kept_blocks codexR claudeR)).
  { intros b Hb. rewrite kept_blocks_proposals. unfold proposal.
    simpl in Hb. destruct Hb as [<- | [<- | [<- | []]]].
    - now left.
    - apply in_or_app. right. apply in_or_app. right. now left.
    - apply in_or_app. right. now left. }
  repeat split.
  - apply line_of_join; [ apply T; simpl; auto | reflexivity ].
  - apply line_of_join; [ apply T; simpl; auto | reflexivity ].
  - apply line_of_join; [ apply T; simpl; auto | reflexivity ].
  - apply kept_blocks_nonempty.
  - intros H. rewrite has_blank_line_join by apply kept_blocks_not_nil.
    destruct (existsb has_blank_line (kept_blocks codexR claudeR)) eqn:E;
      [ | reflexivity ].
    apply existsb_exists in E. destruct E as (b & Hb & Hblank).
    rewrite forallb_forall in H. specialize (H b Hb).
    rewrite Hblank in H. discriminate H.
Qed.

(** C9 on the example scenario, where no block has a blank line. *)
Lemma notes_have_titles_and_no_empty_block_witness :
  has_blank_line
    (mergedNotes
       (planWithJanus "Add logging"
          (mkPlanResult codex_provider primary_raw "" "")
          (mkPlanResult claude_provider secondary_raw "" "")))
  = false.
Proof.
  apply (notes_have_titles_and_no_empty_block "Add logging"
           (mkPlanResult codex_provider primary_raw "" "")
           (mkPlanResult claude_provider secondary_raw "" "")).
  vm_compute. reflexivity.
Defined.

End MergeTheorems.

(* ===================================================================== *)
(** ** The section extractor: theorems                                    *)
(* ===================================================================== *)

Module ExtractTheorems.
Import Js Regex Orchestrator TextFacts.

(** *** The matcher on small inputs *)

(** The white space after the colon is given back when nothing else is
    left for the group. *)
Example exec_gives_back_white_space :
  exec flags_is systemPromptRe ("SYSTEM PROMPT: " ++ nl ++ nl)
  = Some (mkWay ("SYSTEM PROMPT: " ++ nl ++ nl) (Some nl) "").
Proof. reflexivity. Qed.

(** A label line directly followed by a blank line: the white space class
    takes the blank line, and the group starts at the next label. *)
Example extractSystemPrompt_after_blank_line :
  extractSystemPrompt ("SYSTEM PROMPT:" ++ nl ++ nl ++ "PLAN:" ++ nl ++ "Step 1")
  = "PLAN:" ++ nl ++ "Step 1".
Proof. reflexivity. Qed.

(** The three extractors on one output with all three labels. *)
Example extract_three_sections :
  let out := "System Prompt: Be careful" ++ nl ++ "Plan:" ++ nl ++ "1. Read"
             ++ nl ++ "2. Write" ++ nl ++ nl ++ "Reasoning: It works."
             ++ nl ++ nl ++ "Really." in
  extractSystemPrompt out = "Be careful"
  /\ extractPlan out = "1. Read" ++ nl ++ "2. Write"
  /\ extractRationale out = "It works." ++ nl ++ nl ++ "Really.".
Proof. repeat split. Qed.

(** Without a label the first three non-blank lines are joined. *)
Example extractSystemPrompt_first_lines :
  extractSystemPrompt
    (nl ++ " one " ++ nl ++ nl ++ "two" ++ nl ++ "three" ++ nl ++ "four")
  = "one  two three".
Proof. reflexivity. Qed.

(** Group 1 takes part in every match of the three patterns, so its text
    is always there to trim. *)
Lemma binds_group f r :
  binds r = true ->
  forall b s w, In w (ways f r b s) -> group1 w <> None.
Proof.
  induction r as [ | | p | c | c | r IH | r IH | r1 IH1 r2 IH2 | r1 IH1 r2 IH2];
    intros Hb b s w H; cbn [binds] in Hb; try discriminate; cbn [ways] in H.
  - apply in_map_iff in H. destruct H as (w' & <- & _). discriminate.
  - apply in_flat_map in H. destruct H as (w1 & Hw1 & H).
    apply in_map_iff in H. destruct H as (w2 & <- & Hw2).
    unfold glue. cbn [group1].
    destruct (group1 w2) eqn:E2; [ discriminate | ].
    apply orb_true_iff in Hb. destruct Hb as [Hb | Hb].
    + eapply IH1; eauto.
    + exfalso. eapply IH2; eauto.
  - apply andb_true_iff in Hb. destruct Hb as [Hb1 Hb2].
    apply in_app_or in H. destruct H as [H | H]; eauto.
Qed.

Lemma search_In f r b s w : search f r b s = Some w ->
  exists b' s', In w (ways f r b' s').
Proof.
  revert b. induction s as [ | c s IH]; intros b H; cbn [search] in H.
  - destruct (ways f r b "") as [ | w' tl] eqn:E; [ discriminate | ].
    injection H as <-. exists b, "". rewrite E. now left.
  - destruct (ways f r b (String c s)) as [ | w' tl] eqn:E.
    + eapply IH; eauto.
    + injection H as <-. exists b, (String c s). rewrite E. now left.
Qed.

Lemma exec_binds_group r s w :
  In r [systemPromptRe; planRe; rationaleRe] ->
  exec flags_is r s = Some w -> exists g, group1 w = Some g.
Proof.
  intros Hr H. apply search_In in H. destruct H as (b' & s' & Hin).
  assert (Hb : binds r = true)
    by (destruct Hr as [<- | [<- | [<- | []]]]; reflexivity).
  pose proof (binds_group flags_is r Hb b' s' w Hin) as Hg.
  destruct (group1 w) as [g | ]; [ now exists g | contradiction ].
Qed.

(** *** Trimming *)

Lemma append_assoc (a b c : string) : (a ++ b) ++ c = a ++ (b ++ c).
Proof. induction a as [ | x a IH]; simpl; [ reflexivity | now rewrite IH ]. Qed.

Lemma trimEnd_visible_end s z :
  is_space z = false -> trimEnd (s ++ String z "") = s ++ String z "".
Proof.
  intros Hz. induction s as [ | c s IH]; simpl.
  - now rewrite Hz.
  - rewrite IH. destruct s; reflexivity.
Qed.

(** A text that starts and ends with a visible character is its own
    trimmed form. *)
Lemma trim_visible_ends a mid z :
  is_space a = false -> is_space z = false ->
  trim (String a (mid ++ String z "")) = String a (mid ++ String z "").
Proof.
  intros Ha Hz. unfold trim. simpl trimStart. rewrite Ha.
  apply (trimEnd_visible_end (String a mid) z Hz).
Qed.

(** *** The truncation of a long first line *)

Lemma length_long_line : String.length long_line = 250.
Proof. reflexivity. Qed.

(** C7 as stated fails: when the 200th character of the long first line
    is a space, only 199 characters come before the ellipsis. *)
Lemma truncation_is_not_always_200_characters :
  ~ (forall content line rest,
       exec flags_is systemPromptRe content = None ->
       nonblank_lines content = line :: rest ->
       200 < String.length line ->
       extractSystemPrompt content = take 200 line ++ "...").
Proof.
  intros H.
  assert (L : 200 < String.length long_line)
    by (rewrite length_long_line; lia).
  specialize (H long_line long_line [] eq_refl eq_refl L).
  vm_compute in H. discriminate H.
Qed.

(** C7, amended: without a label match and with a first non-blank line
    of more than 200 characters, the result is the first 200 characters of
    that line, trimmed of white space at both ends, followed by "...";
    these are exactly the 200 characters when the first and the 200th are
    visible. *)
Theorem truncation_of_long_first_line content line rest :
  exec flags_is systemPromptRe content = None ->
  nonblank_lines content = line :: rest ->
  200 < String.length line ->
  extractSystemPrompt content = trim (take 200 line) ++ "..."
  /\ (forall a mid z,
        take 200 line = String a (mid ++ String z "") ->
        is_space a = false -> is_space z = false ->
        extractSystemPrompt content = take 200 line ++ "...").
Proof.
  intros Hno Hlines Hlen.
  assert (E : extractSystemPrompt content = trim (take 200 line) ++ "...").
  { unfold extractSystemPrompt. rewrite Hno, Hlines.
    apply Nat.ltb_lt in Hlen. now rewrite Hlen. }
  split; [ exact E | ].
  intros a mid z Ht Ha Hz. rewrite E, Ht.
  now rewrite trim_visible_ends.
Qed.

(** The amended C7 on a line of 199 letters, a space and 50 letters. *)
Lemma truncation_of_long_first_line_witness :
  extractSystemPrompt long_line = repeat_char "a" 199 ++ "...".
Proof.
  assert (L : 200 < String.length long_line)
    by (rewrite length_long_line; lia).
  rewrite (proj1 (truncation_of_long_first_line long_line long_line []
                    eq_refl eq_refl L)).
  reflexivity.
Defined.

(** *** Literals *)

Lemma char_eq_is a b : char_eq flags_is a b = Ascii.eqb (canon a) (canon b).
Proof. reflexivity. Qed.

Lemma canon_LF c : Ascii.eqb (canon c) LF = Ascii.eqb c LF.
Proof.
  destruct c as [[] [] [] [] [] [] [] []]; reflexivity.
Qed.

Lemma visible_not_LF c : is_space c = false -> Ascii.eqb c LF = false.
Proof.
  destruct c as [[] [] [] [] [] [] [] []]; (reflexivity || discriminate).
Qed.

(** A literal has at most one way: the front of the input, when it fits. *)
Lemma lit_ways_spec p s :
  lit_ways flags_is p s
  = if starts_ci p s
    then [mkWay (take (String.length p) s) None (drop (String.length p) s)]
    else [].
Proof.
  revert s. induction p as [ | a p IH]; intros s.
  - destruct s; reflexivity.
  - destruct s as [ | b s]; [ reflexivity | ].
    simpl. rewrite char_eq_is.
    destruct (Ascii.eqb (canon a) (canon b)); [ | reflexivity ].
    rewrite IH. simpl. destruct (starts_ci p s); reflexivity.
Qed.

Lemma starts_ci_app p q s :
  starts_ci (p ++ q) s
  = starts_ci p s && starts_ci q (drop (String.length p) s).
Proof.
  revert s. induction p as [ | a p IH]; intros s.
  - simpl. destruct s; reflexivity.
  - destruct s as [ | b s]; [ reflexivity | ].
    simpl. rewrite IH. now rewrite andb_assoc.
Qed.

Lemma ci_eq_starts p l t : ci_eq p l = true -> starts_ci p (l ++ t) = true.
Proof.
  revert l. induction p as [ | a p IH]; intros l H.
  - reflexivity.
  - destruct l as [ | b l]; [ discriminate | ]. simpl in *.
    apply andb_true_iff in H. destruct H as [H1 H2].
    now rewrite H1, IH.
Qed.

Lemma ci_eq_length p l : ci_eq p l = true -> String.length p = String.length l.
Proof.
  revert l. induction p as [ | a p IH]; intros l H;
    destruct l as [ | b l]; try discriminate; [ reflexivity | ].
  simpl in *. apply andb_true_iff in H. f_equal. now apply IH.
Qed.

Lemma take_length_app l t : take (String.length l) (l ++ t) = l.
Proof. induction l as [ | b l IH]; simpl; [ now destruct t | now rewrite IH ]. Qed.

Lemma drop_length_app l t : drop (String.length l) (l ++ t) = t.
Proof. induction l as [ | b l IH]; simpl; [ now destruct t | assumption ]. Qed.

(** A literal equal to [l] up to case takes [l] off the input. *)
Lemma lit_ways_ci_eq p l t :
  ci_eq p l = true -> lit_ways flags_is p (l ++ t) = [mkWay l None t].
Proof.
  intros H. rewrite lit_ways_spec, (ci_eq_starts _ _ _ H).
  now rewrite (ci_eq_length _ _ H), take_length_app, drop_length_app.
Qed.

(** Patterns equal up to case start the same inputs. *)
Lemma starts_ci_ci_eq p p' s :
  ci_eq p p' = true -> starts_ci p s = starts_ci p' s.
Proof.
  revert p' s. induction p as [ | a p IH]; intros p' s H;
    destruct p' as [ | a' p']; try discriminate; [ reflexivity | ].
  simpl in H. apply andb_true_iff in H. destruct H as [H1 H2].
  apply Ascii.eqb_eq in H1.
  destruct s as [ | b s]; [ reflexivity | ]. simpl.
  now rewrite H1, (IH _ _ H2).
Qed.

(** *** Sequencing and the head of a list of ways *)

Lemma ways_Seq f r1 r2 b s :
  ways f (Seq r1 r2) b s
  = flat_map
      (fun w1 =>
         map (glue w1)
             (ways f r2 (b && negb (truthy (consumed w1))) (rest w1)))
      (ways f r1 b s).
Proof. reflexivity. Qed.

Lemma ways_Lit f p b s : ways f (Lit p) b s = lit_ways f p s.
Proof. reflexivity. Qed.

Lemma group1_glue w1 w2 g : group1 w2 = Some g -> group1 (glue w1 w2) = Some g.
Proof. intros H. unfold glue. simpl. now rewrite H. Qed.

(** When the first way of [r1] can be continued by [r2], the group of that
    continuation is the group of the first way of the sequence. *)
Lemma seq_first_group f r1 r2 b s w1 g :
  heads (ways f r1 b s) w1 ->
  first_group (ways f r2 (b && negb (truthy (consumed w1))) (rest w1)) g ->
  first_group (ways f (Seq r1 r2) b s) g.
Proof.
  intros [tl Hw] (w2 & tl2 & H2 & Hg).
  rewrite ways_Seq, Hw. simpl. rewrite H2. simpl.
  eexists _, _. split; [ reflexivity | ]. now apply group1_glue.
Qed.

(** A sequence whose first part has one way only, which cannot be
    continued, has no way. *)
Lemma seq_none_single f r1 r2 b s :
  (forall w1, In w1 (ways f r1 b s) ->
     ways f r2 (b && negb (truthy (consumed w1))) (rest w1) = []) ->
  ways f (Seq r1 r2) b s = [].
Proof.
  intros H. rewrite ways_Seq.
  induction (ways f r1 b s) as [ | w l IH]; [ reflexivity | ].
  simpl. rewrite (H w) by now left. simpl. apply IH.
  intros w1 Hw1. apply H. now right.
Qed.

(** *** The label *)

(** Membership in an alternation of literals, one literal at a time. *)
Ltac in_alternation H :=
  repeat (apply in_app_or in H; destruct H as [H | H]).

Lemma In_lit_ways p s w :
  In w (lit_ways flags_is p s) ->
  starts_ci p s = true /\ rest w = drop (String.length p) s.
Proof.
  rewrite lit_ways_spec. destruct (starts_ci p s); [ | intros [] ].
  intros [<- | []]. now split.
Qed.

Lemma lit_ways_none p s : starts_ci p s = false -> lit_ways flags_is p s = [].
Proof. intros H. now rewrite lit_ways_spec, H. Qed.

(** A literal followed by a colon that is not at the front of the input. *)
Lemma colon_after_lit_none p s w K b :
  starts_ci (p ++ ":") s = false ->
  In w (lit_ways flags_is p s) ->
  ways flags_is (Seq (Lit ":") K) b (rest w) = [].
Proof.
  intros Hs Hw. apply In_lit_ways in Hw. destruct Hw as [Hp ->].
  rewrite starts_ci_app, Hp, andb_true_l in Hs.
  rewrite ways_Seq, ways_Lit, (lit_ways_none _ _ Hs). reflexivity.
Qed.

Lemma label_at_spellings s :
  label_at s = false ->
  starts_ci "SYSTEM PROMPT:" s = false
  /\ starts_ci "System Prompt:" s = false
  /\ starts_ci "SYSTEM:" s = false
  /\ starts_ci "System:" s = false.
Proof.
  unfold label_at. intros H. apply orb_false_iff in H. destruct H as [H1 H2].
  rewrite (starts_ci_ci_eq "System Prompt:" "SYSTEM PROMPT:") by reflexivity.
  rewrite (starts_ci_ci_eq "System:" "SYSTEM:") by reflexivity.
  auto.
Qed.

Lemma ways_sp_labels b s :
  ways flags_is sp_labels b s
  = (lit_ways flags_is "SYSTEM PROMPT" s
     ++ lit_ways flags_is "System Prompt" s
     ++ lit_ways flags_is "SYSTEM" s
     ++ lit_ways flags_is "System" s)%list.
Proof. reflexivity. Qed.

(** Where no label stands, the pattern after the line start has no way. *)
Lemma after_line_start_none s K b :
  label_at s = false ->
  ways flags_is (Seq sp_labels (Seq (Lit ":") K)) b s = [].
Proof.
  intros H. apply label_at_spellings in H. destruct H as (H1 & H2 & H3 & H4).
  apply seq_none_single. intros w Hw.
  rewrite ways_sp_labels in Hw.
  in_alternation Hw;
    (eapply colon_after_lit_none; [ | exact Hw ]);
    first [ exact H1 | exact H2 | exact H3 | exact H4 ].
Qed.

(** Where a label stands, it is the first way of the alternation. *)
Lemma labels_head label u b :
  is_label label = true ->
  heads (ways flags_is sp_labels b (label ++ ":" ++ u))
        (mkWay label None (":" ++ u)).
Proof.
  unfold is_label. intros H. rewrite ways_sp_labels.
  destruct (ci_eq "SYSTEM PROMPT" label) eqn:E1.
  - rewrite (lit_ways_ci_eq _ _ _ E1). now eexists.
  - rewrite orb_false_l in H.
    assert (N : forall p, ci_eq p "SYSTEM PROMPT" = true ->
                  lit_ways flags_is p (label ++ ":" ++ u) = []).
    { intros p Hp. apply lit_ways_none.
      rewrite (starts_ci_ci_eq _ _ _ Hp).
      change "SYSTEM PROMPT" with ("SYSTEM" ++ " PROMPT").
      rewrite starts_ci_app, (ci_eq_length _ _ H), drop_length_app.
      apply andb_false_r. }
    rewrite !N by reflexivity. rewrite !app_nil_l.
    rewrite (lit_ways_ci_eq _ _ _ H). now eexists.
Qed.

(** *** White space after the colon *)

Lemma star_space_head gap c s :
  all_space gap = true -> is_space c = false ->
  heads (star_ways flags_is Space (gap ++ String c s))
        (mkWay gap None (String c s)).
Proof.
  intros Hg Hc. induction gap as [ | a gap IH]; simpl.
  - rewrite Hc. now eexists.
  - simpl in Hg. apply andb_true_iff in Hg. destruct Hg as [Ha Hg].
    rewrite Ha. destruct (IH Hg) as [tl ->]. simpl. now eexists.
Qed.

Lemma opt_nl_visible c s b :
  is_space c = false ->
  ways flags_is (Opt (Lit nl)) b (String c s) = [empty_way (String c s)].
Proof.
  intros Hc. simpl. rewrite char_eq_is.
  change (canon LF) with LF. rewrite Ascii.eqb_sym, canon_LF.
  now rewrite (visible_not_LF _ Hc).
Qed.

(** *** The end of the section *)

Lemma ways_sp_terminator b r :
  ways flags_is sp_terminator b r
  = (lit_ways flags_is (nl ++ nl) r
     ++ ways flags_is
          (Seq (Lit nl)
            (Seq (alts ["PLAN"; "Plan"; "RATIONALE"; "Rationale"]) (Lit ":")))
          b r
     ++ ways flags_is Eol b r)%list.
Proof. reflexivity. Qed.

Lemma starts_ci_blank_line r :
  starts_ci (nl ++ nl) r = startsWith (nl ++ nl) r.
Proof.
  assert (E : forall a, Ascii.eqb (canon LF) (canon a) = Ascii.eqb LF a).
  { intros a. change (canon LF) with LF.
    now rewrite Ascii.eqb_sym, canon_LF, Ascii.eqb_sym. }
  change (nl ++ nl) with (String LF (String LF "")).
  destruct r as [ | a [ | a' r]]; cbn [starts_ci startsWith];
    rewrite ?E; reflexivity.
Qed.

Lemma lit_colon_none p s w b :
  starts_ci (p ++ ":") s = false ->
  In w (lit_ways flags_is p s) ->
  ways flags_is (Lit ":") b (rest w) = [].
Proof.
  intros Hs Hw. apply In_lit_ways in Hw. destruct Hw as [Hp ->].
  rewrite starts_ci_app, Hp, andb_true_l in Hs.
  rewrite ways_Lit. now apply lit_ways_none.
Qed.

(** Where no PLAN or RATIONALE label starts the next line, the second
    alternative of the terminator has no way. *)
Lemma next_label_none r b :
  starts_ci (nl ++ "PLAN:") r = false ->
  starts_ci (nl ++ "RATIONALE:") r = false ->
  ways flags_is
    (Seq (Lit nl)
      (Seq (alts ["PLAN"; "Plan"; "RATIONALE"; "Rationale"]) (Lit ":")))
    b r = [].
Proof.
  intros HP HR. apply seq_none_single. intros w1 Hw1.
  rewrite ways_Lit in Hw1. apply In_lit_ways in Hw1.
  destruct Hw1 as [Hnl ->].
  change (nl ++ "PLAN:") with (nl ++ ("PLAN" ++ ":")) in HP.
  change (nl ++ "RATIONALE:") with (nl ++ ("RATIONALE" ++ ":")) in HR.
  rewrite starts_ci_app, Hnl, andb_true_l in HP, HR.
  set (r' := drop (String.length nl) r) in *.
  assert (HP' : starts_ci ("Plan" ++ ":") r' = false)
    by (now rewrite (starts_ci_ci_eq _ ("PLAN" ++ ":")) by reflexivity).
  assert (HR' : starts_ci ("Rationale" ++ ":") r' = false)
    by (now rewrite (starts_ci_ci_eq _ ("RATIONALE" ++ ":")) by reflexivity).
  apply seq_none_single. intros w2 Hw2.
  change (ways flags_is
            (alts ["PLAN"; "Plan"; "RATIONALE"; "Rationale"])
            (b && negb (truthy (consumed w1))) r')
    with (lit_ways flags_is "PLAN" r' ++ lit_ways flags_is "Plan" r'
          ++ lit_ways flags_is "RATIONALE" r'
          ++ lit_ways flags_is "Rationale" r')%list in Hw2.
  in_alternation Hw2;
    (eapply lit_colon_none; [ | exact Hw2 ]);
    first [ exact HP | exact HP' | exact HR | exact HR' ].
Qed.

(** Inside the section text the terminator has no way. *)
Lemma terminator_none r b :
  boundary r = false -> r <> "" -> ways flags_is sp_terminator b r = [].
Proof.
  unfold boundary. intros H Hr.
  apply orb_false_iff in H. destruct H as [H HR].
  apply orb_false_iff in H. destruct H as [HB HP].
  rewrite ways_sp_terminator, next_label_none by assumption.
  rewrite lit_ways_none by now rewrite starts_ci_blank_line.
  destruct r; [ contradiction | reflexivity ].
Qed.

(** Ways of a pattern without a group bind no group. *)
Lemma lit_ways_groupless f p s w : In w (lit_ways f p s) -> group1 w = None.
Proof.
  revert s w. induction p as [ | a p IH]; intros s w H.
  - destruct H as [<- | []]. reflexivity.
  - destruct s as [ | c s]; [ destruct H | ]. cbn [lit_ways] in H.
    destruct (char_eq f a c); [ | destruct H ].
    apply in_map_iff in H. destruct H as (w' & <- & Hw'). simpl. eauto.
Qed.

Lemma star_ways_groupless f c s w : In w (star_ways f c s) -> group1 w = None.
Proof.
  revert w. induction s as [ | a s IH]; intros w H; cbn [star_ways] in H.
  - destruct H as [<- | []]. reflexivity.
  - destruct (cls_matches f c a).
    + apply in_app_or in H. destruct H as [H | [<- | []]]; [ | reflexivity ].
      apply in_map_iff in H. destruct H as (w' & <- & Hw'). simpl. eauto.
    + destruct H as [<- | []]. reflexivity.
Qed.

Lemma plus_ways_groupless f c s w : In w (plus_ways f c s) -> group1 w = None.
Proof.
  revert w. induction s as [ | a s IH]; intros w H; cbn [plus_ways] in H.
  - destruct H.
  - destruct (cls_matches f c a); [ | destruct H ].
    destruct H as [<- | H]; [ reflexivity | ].
    apply in_map_iff in H. destruct H as (w' & <- & Hw'). simpl. eauto.
Qed.

Lemma cap_free_groupless f r :
  cap_free r = true ->
  forall b s w, In w (ways f r b s) -> group1 w = None.
Proof.
  induction r as [ | | p | c | c | r IH | r IH | r1 IH1 r2 IH2 | r1 IH1 r2 IH2];
    intros Hc b s w H; cbn [ways] in H; cbn [cap_free] in Hc.
  - destruct b; [ | destruct H ]. destruct H as [<- | []]. reflexivity.
  - destruct s; [ | destruct H ]. destruct H as [<- | []]. reflexivity.
  - eapply lit_ways_groupless; eauto.
  - eapply star_ways_groupless; eauto.
  - eapply plus_ways_groupless; eauto.
  - apply in_app_or in H. destruct H as [H | [<- | []]]; [ | reflexivity ].
    eapply IH; eauto.
  - discriminate.
  - apply andb_true_iff in Hc. destruct Hc as [Hc1 Hc2].
    apply in_flat_map in H. destruct H as (w1 & Hw1 & H).
    apply in_map_iff in H. destruct H as (w2 & <- & Hw2).
    unfold glue. cbn [group1].
    rewrite (IH2 Hc2 _ _ _ Hw2). eapply IH1; eauto.
  - apply andb_true_iff in Hc. destruct Hc as [Hc1 Hc2].
    apply in_app_or in H. destruct H as [H | H]; eauto.
Qed.

(** A sequence has a way as soon as some way of its first part can be
    continued. *)
Lemma seq_some f r1 r2 b s w1 :
  In w1 (ways f r1 b s) ->
  ways f r2 (b && negb (truthy (consumed w1))) (rest w1) <> [] ->
  ways f (Seq r1 r2) b s <> [].
Proof.
  intros Hin Hne Hnil. rewrite ways_Seq in Hnil.
  destruct (ways f r2 (b && negb (truthy (consumed w1))) (rest w1))
    as [ | w2 tl] eqn:E; [ now apply Hne | ].
  assert (Hg : In (glue w1 w2)
                 (flat_map
                    (fun w1 => map (glue w1)
                       (ways f r2 (b && negb (truthy (consumed w1))) (rest w1)))
                    (ways f r1 b s))).
  { apply in_flat_map. exists w1. split; [ assumption | ].
    rewrite E. now left. }
  rewrite Hnil in Hg. destruct Hg.
Qed.

Lemma lit_ways_some p s :
  starts_ci p s = true ->
  In (mkWay (take (String.length p) s) None (drop (String.length p) s))
     (lit_ways flags_is p s).
Proof. intros H. rewrite lit_ways_spec, H. now left. Qed.

(** A line feed, one of the two next labels and a colon at the front of
    the input give the second alternative of the terminator a way. *)
Lemma next_label_some (p : string) r b :
  In p ["PLAN"; "RATIONALE"] ->
  starts_ci (nl ++ p ++ ":") r = true ->
  ways flags_is
    (Seq (Lit nl)
      (Seq (alts ["PLAN"; "Plan"; "RATIONALE"; "Rationale"]) (Lit ":")))
    b r <> [].
Proof.
  intros Hp H. rewrite !starts_ci_app in H.
  apply andb_true_iff in H. destruct H as [Hnl H].
  apply andb_true_iff in H. destruct H as [Hlab Hcolon].
  eapply seq_some; [ rewrite ways_Lit; apply (lit_ways_some _ _ Hnl) | ].
  cbn [rest consumed].
  eapply seq_some with
    (w1 := mkWay (take (String.length p) (drop (String.length nl) r)) None
                 (drop (String.length p) (drop (String.length nl) r))).
  - change (ways flags_is (alts ["PLAN"; "Plan"; "RATIONALE"; "Rationale"])
              ?b ?s)
      with (lit_ways flags_is "PLAN" s ++ lit_ways flags_is "Plan" s
            ++ lit_ways flags_is "RATIONALE" s
            ++ lit_ways flags_is "Rationale" s)%list.
    destruct Hp as [<- | [<- | []]].
    + apply in_or_app. left. now apply lit_ways_some.
    + apply in_or_app. right. apply in_or_app. right.
      apply in_or_app. left. now apply lit_ways_some.
  - cbn [rest consumed]. rewrite ways_Lit.
    intros Hnil. pose proof (lit_ways_some _ _ Hcolon) as Hin.
    rewrite Hnil in Hin. destruct Hin.
Qed.

(** Where the section ends, the terminator has a first way, and it binds
    no group. *)
Lemma terminator_some tail b :
  ends_section tail = true ->
  exists w tl,
    ways flags_is sp_terminator b tail = w :: tl /\ group1 w = None.
Proof.
  intros H.
  assert (Hne : ways flags_is sp_terminator b tail <> []).
  { rewrite ways_sp_terminator. unfold ends_section, boundary in H.
    apply orb_true_iff in H. destruct H as [H | H].
    - apply orb_true_iff in H. destruct H as [H | H].
      + apply orb_true_iff in H. destruct H as [H | H].
        * rewrite <- starts_ci_blank_line in H.
          intros Hnil. apply app_eq_nil in Hnil. destruct Hnil as [Hnil _].
          pose proof (lit_ways_some _ _ H) as Hin.
          rewrite Hnil in Hin. destruct Hin.
        * intros Hnil. apply app_eq_nil in Hnil. destruct Hnil as [_ Hnil].
          apply app_eq_nil in Hnil. destruct Hnil as [Hnil _].
          revert Hnil. apply (next_label_some "PLAN"); [ now left | exact H ].
      + intros Hnil. apply app_eq_nil in Hnil. destruct Hnil as [_ Hnil].
        apply app_eq_nil in Hnil. destruct Hnil as [Hnil _].
        revert Hnil.
        apply (next_label_some "RATIONALE"); [ right; now left | exact H ].
    - destruct tail; [ | discriminate H ].
      intros Hnil. apply app_eq_nil in Hnil. destruct Hnil as [_ Hnil].
      apply app_eq_nil in Hnil. destruct Hnil as [_ Hnil].
      discriminate Hnil. }
  destruct (ways flags_is sp_terminator b tail) as [ | w tl] eqn:E;
    [ contradiction | ].
  exists w, tl. split; [ reflexivity | ].
  apply (cap_free_groupless flags_is sp_terminator eq_refl b tail).
  rewrite E. now left.
Qed.

(** *** The lazy capture *)

Lemma plus_ways_dot c s :
  plus_ways flags_is Dot (String c s)
  = shift c (empty_way s) :: map (shift c) (plus_ways flags_is Dot s).
Proof. reflexivity. Qed.

Lemma prepend_shift acc c w :
  prepend acc (shift c w) = prepend (acc ++ String c "") w.
Proof.
  unfold prepend, shift. simpl. now rewrite append_assoc.
Qed.

Lemma prepend_empty w : prepend "" w = w.
Proof. now destruct w. Qed.

(** The group stretches from its first character to the first boundary:
    every shorter run is refused by the terminator. *)
Lemma capture_runs_to_boundary tail b body :
  ends_section tail = true ->
  forall acc c,
    no_boundary_in body tail = true ->
    first_group
      (flat_map
         (fun w1 =>
            map (glue w1)
                (ways flags_is sp_terminator
                      (b && negb (truthy (consumed w1))) (rest w1)))
         (map (fun w => mkWay (consumed w) (Some (consumed w)) (rest w))
              (map (prepend acc)
                   (plus_ways flags_is Dot (String c body ++ tail)))))
      (acc ++ String c body).
Proof.
  intros Ht.
  induction body as [ | d body IH]; intros acc c Hb.
  - change (String c "" ++ tail) with (String c tail).
    rewrite plus_ways_dot. cbn [map flat_map].
    cbn [rest prepend shift empty_way consumed group1].
    destruct (terminator_some tail
                (b && negb (truthy (acc ++ String c ""))) Ht)
      as (wt & tl & -> & Hgt).
    cbn [map app]. eexists _, _. split; [ reflexivity | ].
    unfold glue. cbn [group1]. now rewrite Hgt.
  - change (String c (String d body) ++ tail)
      with (String c (String d body ++ tail)).
    rewrite plus_ways_dot. cbn [map flat_map].
    cbn [no_boundary_in] in Hb. apply andb_true_iff in Hb.
    destruct Hb as [Hd Hb]. apply negb_true_iff in Hd.
    cbn [rest prepend shift empty_way consumed group1].
    rewrite terminator_none; [ | exact Hd | discriminate ].
    cbn [map app]. rewrite (map_map (shift c) (prepend acc)).
    rewrite (map_ext _ _ (prepend_shift acc c)).
    specialize (IH (acc ++ String c "") d Hb).
    rewrite append_assoc in IH. exact IH.
Qed.

Lemma capture_first_group tail b c body :
  ends_section tail = true ->
  no_boundary_in body tail = true ->
  first_group
    (ways flags_is (Seq (Cap (PlusL Dot)) sp_terminator) b
          (String c body ++ tail))
    (String c body).
Proof.
  intros Ht Hb.
  pose proof (capture_runs_to_boundary tail b body Ht "" c Hb) as H.
  rewrite (map_ext _ _ prepend_empty), map_id in H. exact H.
Qed.

(** *** From the label to the end of the section *)

Lemma after_label_first_group label gap c body tail b :
  is_label label = true ->
  all_space gap = true ->
  is_space c = false ->
  no_boundary_in body tail = true ->
  ends_section tail = true ->
  first_group
    (ways flags_is
       (Seq sp_labels
         (Seq (Lit ":")
           (Seq (StarG Space)
             (Seq (Opt (Lit nl))
               (Seq (Cap (PlusL Dot)) sp_terminator)))))
       b (label ++ ":" ++ gap ++ String c body ++ tail))
    (String c body).
Proof.
  intros Hl Hg Hc Hb Ht.
  eapply seq_first_group; [ apply labels_head, Hl | ].
  cbn [rest consumed].
  eapply seq_first_group.
  { rewrite ways_Lit. rewrite (lit_ways_ci_eq ":" ":") by reflexivity.
    now eexists. }
  cbn [rest consumed].
  eapply seq_first_group.
  { change (gap ++ String c body ++ tail)
      with (gap ++ String c (body ++ tail)).
    apply (star_space_head gap c _ Hg Hc). }
  cbn [rest consumed].
  eapply seq_first_group.
  { rewrite opt_nl_visible by assumption. now eexists. }
  cbn [rest consumed empty_way].
  apply (capture_first_group tail _ c body Ht Hb).
Qed.

Lemma ways_line_start b s :
  ways flags_is line_start b s
  = ((if b then [empty_way s] else []) ++ lit_ways flags_is nl s)%list.
Proof. reflexivity. Qed.

Lemma lit_ways_nl s : lit_ways flags_is nl (String LF s) = [mkWay nl None s].
Proof. apply (lit_ways_ci_eq nl nl s). reflexivity. Qed.

Lemma label_at_LF s : label_at (String LF s) = false.
Proof. reflexivity. Qed.

(** The match at the label line, started at the input's first character
    or at the line feed before the label. *)
Lemma match_at_label (at_lf b : bool) label gap c body tail :
  (at_lf = false -> b = true) ->
  is_label label = true ->
  all_space gap = true ->
  is_space c = false ->
  no_boundary_in body tail = true ->
  ends_section tail = true ->
  first_group
    (ways flags_is systemPromptRe b
       ((if at_lf then nl else "")
        ++ label ++ ":" ++ gap ++ String c body ++ tail))
    (String c body).
Proof.
  intros Hb Hl Hg Hc Hn Ht.
  set (L := label ++ ":" ++ gap ++ String c body ++ tail).
  unfold systemPromptRe. rewrite ways_Seq, ways_line_start.
  destruct at_lf.
  - change (nl ++ L) with (String LF L). rewrite lit_ways_nl.
    destruct (after_label_first_group label gap c body tail
                (b && negb (truthy nl)) Hl Hg Hc Hn Ht)
      as (w & tl & Hw & Hgr).
    fold L in Hw.
    destruct b; cbn [app flat_map rest consumed empty_way].
    + rewrite after_line_start_none by apply label_at_LF.
      cbn [map app]. rewrite Hw. cbn [map app].
      eexists _, _. split; [ reflexivity | now apply group1_glue ].
    + rewrite Hw. cbn [map app].
      eexists _, _. split; [ reflexivity | now apply group1_glue ].
  - rewrite (Hb eq_refl). change ("" ++ L) with L.
    cbn [app flat_map rest consumed empty_way].
    destruct (after_label_first_group label gap c body tail
                (true && negb (truthy "")) Hl Hg Hc Hn Ht)
      as (w & tl & Hw & Hgr).
    fold L in Hw. rewrite Hw. cbn [map app].
    eexists _, _. split; [ reflexivity | now apply group1_glue ].
Qed.

(** Where neither the position itself, if it is the start of the input,
    nor the text after a line feed at it carries a label, the pattern has
    no way. *)
Lemma no_match_without_label b s :
  (b = true -> label_at s = false) ->
  (forall s', s = String LF s' -> label_at s' = false) ->
  ways flags_is systemPromptRe b s = [].
Proof.
  intros Hb Hlf. unfold systemPromptRe. apply seq_none_single.
  intros w Hw. rewrite ways_line_start in Hw.
  apply in_app_or in Hw. destruct Hw as [Hw | Hw].
  - destruct b; [ | destruct Hw ]. destruct Hw as [<- | []].
    apply after_line_start_none. now apply Hb.
  - pose proof (In_lit_ways _ _ _ Hw) as [Hs Hr].
    destruct s as [ | a s]; [ discriminate Hs | ].
    change (starts_ci nl (String a s)) with
      (Ascii.eqb (canon LF) (canon a) && true) in Hs.
    rewrite andb_true_r in Hs. change (canon LF) with LF in Hs.
    rewrite Ascii.eqb_sym, canon_LF in Hs. apply Ascii.eqb_eq in Hs.
    subst a. rewrite Hr. apply after_line_start_none. now apply Hlf.
Qed.

(** *** The search for the first label line *)

Lemma ends_line_cons c q :
  q <> "" -> ends_line (String c q) = ends_line q.
Proof. destruct q; [ contradiction | reflexivity ]. Qed.

(** A pattern without line feed that starts in a text ending its line
    does not reach into what follows. *)
Lemma starts_ci_line_end p :
  lf_free p = true ->
  forall q t, ends_line q = true -> q <> "" ->
    starts_ci p (q ++ t) = starts_ci p q.
Proof.
  induction p as [ | a p IH]; intros Hp q t Hq Hne.
  - reflexivity.
  - destruct q as [ | c q]; [ contradiction | ].
    cbn [lf_free] in Hp. apply andb_true_iff in Hp. destruct Hp as [Ha Hp].
    apply negb_true_iff in Ha.
    cbn [append starts_ci].
    destruct q as [ | d q].
    + cbn [ends_line] in Hq. apply Ascii.eqb_eq in Hq. subst c.
      change (canon LF) with LF. rewrite Ha. reflexivity.
    + rewrite (IH Hp (String d q) t); [ reflexivity | | discriminate ].
      now rewrite ends_line_cons in Hq by discriminate.
Qed.

Lemma label_at_line_end q t :
  ends_line q = true -> q <> "" -> label_at (q ++ t) = label_at q.
Proof.
  intros Hq Hne. unfold label_at.
  now rewrite !starts_ci_line_end by (reflexivity || assumption).
Qed.

Lemma search_cons f r b c s :
  search f r b (String c s)
  = match ways f r b (String c s) with
    | w :: _ => Some w
    | [] => search f r false s
    end.
Proof. reflexivity. Qed.

(** The search runs over the lines before the first label line and stops
    at the line feed in front of the label. *)
Lemma search_reaches_first_label L g :
  (forall b, first_group (ways flags_is systemPromptRe b (String LF L)) g) ->
  forall q b,
    ends_line q = true -> q <> "" ->
    (b = true -> label_at q = false) ->
    no_label_after_lf q = true ->
    exists w,
      search flags_is systemPromptRe b (q ++ L) = Some w
      /\ group1 w = Some g.
Proof.
  intros M. induction q as [ | c q IH]; intros b Hq Hne Hb Hn;
    [ contradiction | ].
  cbn [append]. rewrite search_cons.
  destruct q as [ | d q].
  - cbn [ends_line] in Hq. apply Ascii.eqb_eq in Hq. subst c.
    destruct (M b) as (w & tl & Hw & Hg).
    change ("" ++ L) with L. rewrite Hw. now exists w.
  - cbn [no_label_after_lf] in Hn. apply andb_true_iff in Hn.
    destruct Hn as [Hc Hn].
    assert (Hq' : ends_line (String d q) = true)
      by (now rewrite ends_line_cons in Hq by discriminate).
    rewrite no_match_without_label.
    + apply IH; [ assumption | discriminate | discriminate | exact Hn ].
    + intros Hbt.
      change (String c (String d q ++ L)) with (String c (String d q) ++ L).
      rewrite label_at_line_end by (assumption || discriminate). auto.
    + intros s' [= -> <-]. rewrite Ascii.eqb_refl in Hc.
      apply negb_true_iff in Hc.
      change (label_at (String d q ++ L) = false).
      rewrite label_at_line_end by (assumption || discriminate). exact Hc.
Qed.

Lemma exec_first_section pre label gap c body tail :
  first_section pre label gap c body tail ->
  exists w,
    exec flags_is systemPromptRe (sectioned pre label gap c body tail) = Some w
    /\ group1 w = Some (String c body).
Proof.
  intros (Hpre & Hno & Hl & Hg & Hc & Hb & Ht).
  unfold exec, sectioned.
  destruct pre as [ | p pre].
  - change ("" ++ label ++ ":" ++ gap ++ String c body ++ tail)
      with ((if false then nl else "")
            ++ label ++ ":" ++ gap ++ String c body ++ tail).
    destruct (match_at_label false true label gap c body tail
                (fun _ => eq_refl) Hl Hg Hc Hb Ht) as (w & tl & Hw & Hgr).
    exists w. split; [ | exact Hgr ].
    cbv iota in Hw |- *. change ("" ++ ?x) with x in Hw |- *.
    destruct (label ++ ":" ++ gap ++ String c body ++ tail) as [ | x xs];
      cbn [search]; now rewrite Hw.
  - unfold no_label_line in Hno. apply andb_true_iff in Hno.
    destruct Hno as [H0 Hafter]. apply negb_true_iff in H0.
    apply search_reaches_first_label;
      [ | assumption | discriminate | auto | assumption ].
    intros b.
    apply (match_at_label true b label gap c body tail);
      [ discriminate | assumption .. ].
Qed.

(** C6 as stated fails: white space at the end of the section text is
    not returned. *)
Lemma section_text_is_not_returned_exactly :
  ~ (forall pre label gap c body tail,
       first_section pre label gap c body tail ->
       extractSystemPrompt (sectioned pre label gap c body tail)
       = String c body).
Proof.
  intros H.
  specialize (H "" "SYSTEM PROMPT" nl "B"%char "uild it carefully "
                (nl ++ nl ++ "PLAN:" ++ nl ++ "Step 1")).
  assert (F : first_section "" "SYSTEM PROMPT" nl "B"%char
                "uild it carefully "
                (nl ++ nl ++ "PLAN:" ++ nl ++ "Step 1"))
    by (repeat split; reflexivity).
  specialize (H F). vm_compute in H. discriminate H.
Qed.

(** C6, amended: when the first label line of the input ("SYSTEM PROMPT:"
    or "SYSTEM:", in any case, at the start of a line) is followed by
    white space and then by section text that runs up to the first
    boundary (a blank line, a line starting with the label PLAN or
    RATIONALE, or the end of the input), [extractSystemPrompt] returns
    that section text without the label, without the boundary and
    trimmed of white space at its ends; a section text that ends in a
    visible character is returned exactly. *)
Theorem extractSystemPrompt_first_section pre label gap c body tail :
  first_section pre label gap c body tail ->
  extractSystemPrompt (sectioned pre label gap c body tail)
  = trim (String c body)
  /\ (forall mid z,
        body = mid ++ String z "" -> is_space z = false ->
        extractSystemPrompt (sectioned pre label gap c body tail)
        = String c body).
Proof.
  intros F.
  assert (E : extractSystemPrompt (sectioned pre label gap c body tail)
              = trim (String c body)).
  { destruct (exec_first_section _ _ _ _ _ _ F) as (w & Hw & Hg).
    unfold extractSystemPrompt. rewrite Hw.
    unfold group1_trimmed. now rewrite Hg. }
  split; [ exact E | ].
  intros mid z -> Hz. rewrite E.
  destruct F as (_ & _ & _ & _ & Hc & _).
  now apply trim_visible_ends.
Qed.

(** The amended C6 on an input with an introduction before the label
    line, an indented section of two lines and a PLAN label after it. *)
Lemma extractSystemPrompt_first_section_witness :
  extractSystemPrompt
    ("Here is my proposal." ++ nl ++ "System Prompt:" ++ nl ++ "  "
     ++ "Build it carefully." ++ nl ++ "Log every step. "
     ++ nl ++ "plan:" ++ nl ++ "Step 1")
  = "Build it carefully." ++ nl ++ "Log every step.".
Proof.
  assert (F : first_section ("Here is my proposal." ++ nl) "System Prompt"
                (nl ++ "  ") "B"%char
                ("uild it carefully." ++ nl ++ "Log every step. ")
                (nl ++ "plan:" ++ nl ++ "Step 1"))
    by (repeat split; reflexivity).
  exact (proj1 (extractSystemPrompt_first_section _ _ _ _ _ _ F)).
Defined.

End ExtractTheorems.

(* ===================================================================== *)
(** ** The Claude planner: further properties                             *)
(* ===================================================================== *)

Module PlannerTheorems.
Import Js ClaudePlanner Samples ChainFacts MoreFacts ChainTheorems.

(** *** Invariants of the results *)







(** *** Nothing configured *)

(** X2: when none of the four environment variables is set (an empty
    value counts as not set), [claudePlan] returns the stub and writes no
    diagnostic, whatever the task and whatever the external services
    would answer. *)
Theorem claudePlan_unconfigured env task :
  unconfigured env -> claudePlan env task = ret stub.
Proof.
  intros (Ha & Hu & Hc & Ho).
  unfold claudePlan, planWithAnthropic, planWithHttpService,
    planWithCliCommand, planWithOpenAIFallback.
  rewrite Ha, Hu, Hc, Ho. reflexivity.
Qed.

Lemma claudePlan_unconfigured_witness :
  claudePlan empty_values_env "Add logging" = ret stub.
Proof.
  apply claudePlan_unconfigured. repeat split.
Defined.

(** *** Diagnostics *)

Lemma diagnostics_bind {A B} (m : Async A) (k : A -> Async B) :
  diagnostics (bind m k)
  = (diagnostics m
     ++ match outcome m with
        | Returned a => diagnostics (k a)
        | Thrown _ => []
        end)%list.
Proof.
  destruct m as [l [a | e]]; simpl.
  - unfold diagnostics. destruct (k a); reflexivity.
  - now rewrite app_nil_r.
Qed.

Lemma diagnostics_try_catch {A} (m : Async A) (h : JsError -> Async A) :
  diagnostics (try_catch m h)
  = (diagnostics m
     ++ match outcome m with
        | Returned _ => []
        | Thrown e => diagnostics (h e)
        end)%list.
Proof.
  destruct m as [l [a | e]]; simpl.
  - now rewrite app_nil_r.
  - unfold diagnostics. destruct (h e); reflexivity.
Qed.

(** What each stage writes. *)
Lemma planWithAnthropic_diagnostics env task :
  diagnostics (planWithAnthropic env task)
  = match env_value (ANTHROPIC_API_KEY env) with
    | None => []
    | Some k =>
        match anthropic_create env k anthropic_sys (user_text task) with
        | Returned _ => []
        | Thrown e =>
            if is_missing_module e then []
            else [("Anthropic API error (falling back):", e)]
        end
    end.
Proof.
  unfold planWithAnthropic.
  destruct (env_value (ANTHROPIC_API_KEY env)) as [k | ]; [ | reflexivity ].
  rewrite diagnostics_try_catch, diagnostics_bind, outcome_bind.
  unfold await, outcome, diagnostics. cbn [fst snd].
  destruct (anthropic_create env k anthropic_sys (user_text task)) as [m | e];
    [ reflexivity | ].
  unfold is_missing_module.
  destruct (is_Error e && includes "Cannot find module" (message e));
    reflexivity.
Qed.

Lemma planWithHttpService_diagnostics env task :
  diagnostics (planWithHttpService env task)
  = match env_value (CLAUDE_FLOW_URL env) with
    | None => []
    | Some u =>
        match http_post env u task with
        | UrlRejected e => [("HTTP service error (falling back):", e)]
        | _ => []
        end
    end.
Proof.
  unfold planWithHttpService.
  destruct (env_value (CLAUDE_FLOW_URL env)) as [u | ]; [ | reflexivity ].
  destruct (http_post env u task); reflexivity.
Qed.

Lemma planWithCliCommand_diagnostics env task :
  diagnostics (planWithCliCommand env task)
  = match env_value (CLAUDE_FLOW_CMD env) with
    | None => []
    | Some c =>
        match exec_shell env (cli_command c task) with
        | Returned _ => []
        | Thrown e => [("CLI command error (falling back):", e)]
        end
    end.
Proof.
  unfold planWithCliCommand.
  destruct (env_value (CLAUDE_FLOW_CMD env)) as [c | ]; [ | reflexivity ].
  rewrite diagnostics_try_catch, diagnostics_bind, outcome_bind.
  unfold await, outcome, diagnostics. cbn [fst snd].
  destruct (exec_shell env (cli_command c task)) as [[o x] | e];
    [ | reflexivity ].
  cbn [fst snd]. destruct (negb (truthy (or_else (trim o) (trim x))));
    reflexivity.
Qed.

Lemma planWithOpenAIFallback_diagnostics env task :
  diagnostics (planWithOpenAIFallback env task) = [].
Proof.
  unfold planWithOpenAIFallback.
  destruct (env_value (OPENAI_API_KEY env)) as [k | ]; [ | reflexivity ].
  rewrite diagnostics_bind. unfold await, outcome, diagnostics. cbn [fst snd].
  destruct (openai_create env k openai_sys (user_text task)); reflexivity.
Qed.

(** The log of the chain is made of the logs of its stages, in order. *)
Lemma claudePlan_diagnostics_incl env task entry :
  In entry (diagnostics (claudePlan env task)) ->
  In entry (diagnostics (planWithAnthropic env task))
  \/ In entry (diagnostics (planWithHttpService env task))
  \/ In entry (diagnostics (planWithCliCommand env task)).
Proof.
  unfold claudePlan. rewrite diagnostics_bind. intros H.
  apply in_app_or in H. destruct H as [H | H]; [ now left | ].
  destruct (outcome (planWithAnthropic env task)) as [[r | ] | ];
    try (now destruct H).
  rewrite diagnostics_bind, diagnostics_try_catch, outcome_try_catch in H.
  apply in_app_or in H. destruct H as [H | H].
  { apply in_app_or in H. destruct H as [H | H]; [ right; now left | ].
    destruct (outcome (planWithHttpService env task)); now destruct H. }
  assert (T : In entry
                (diagnostics
                   (cliResult <- try_catch (planWithCliCommand env task)
                                           (fun _ => ret None) ;;
                    match cliResult with
                    | Some r => ret r
                    | None => planWithOpenAIFallback env task
                    end)) ->
              In entry (diagnostics (planWithCliCommand env task))).
  { clear H. rewrite diagnostics_bind, diagnostics_try_catch,
      outcome_try_catch.
    intros H. apply in_app_or in H. destruct H as [H | H].
    - apply in_app_or in H. destruct H as [H | H]; [ assumption | ].
      destruct (outcome (planWithCliCommand env task)); now destruct H.
    - destruct (outcome (planWithCliCommand env task)) as [[r | ] | ];
        cbn [outcome snd ret] in H; try (now destruct H);
        rewrite planWithOpenAIFallback_diagnostics in H; now destruct H. }
  destruct (outcome (planWithHttpService env task)) as [[r | ] | ];
    cbn [outcome snd ret] in H; try (now destruct H);
    right; right; now apply T.
Qed.

(** X3: every diagnostic that [claudePlan] writes names a transport that
    really failed, with the error it failed with: a direct-API error other
    than a missing SDK module, a service URL that [new URL] refuses, or a
    failed CLI command.  A request error of the HTTP service, a missing
    SDK module and a failure of the final OpenAI call are never logged. *)
Theorem claudePlan_diagnostics_sound env task label e :
  In (label, e) (diagnostics (claudePlan env task)) ->
  (label = "Anthropic API error (falling back):"
   /\ is_missing_module e = false
   /\ exists k, env_value (ANTHROPIC_API_KEY env) = Some k
        /\ anthropic_create env k anthropic_sys (user_text task) = Thrown e)
  \/ (label = "HTTP service error (falling back):"
      /\ exists u, env_value (CLAUDE_FLOW_URL env) = Some u
           /\ http_post env u task = UrlRejected e)
  \/ (label = "CLI command error (falling back):"
      /\ exists c, env_value (CLAUDE_FLOW_CMD env) = Some c
           /\ exec_shell env (cli_command c task) = Thrown e).
Proof.
  intros H. apply claudePlan_diagnostics_incl in H.
  destruct H as [H | [H | H]].
  - left. rewrite planWithAnthropic_diagnostics in H.
    destruct (env_value (ANTHROPIC_API_KEY env)) as [k | ]; [ | destruct H ].
    destruct (anthropic_create env k anthropic_sys (user_text task))
      as [m | e'] eqn:Ec; [ destruct H | ].
    destruct (is_missing_module e') eqn:Em; [ destruct H | ].
    destruct H as [[= <- <-] | []]. repeat split; try assumption.
    now exists k.
  - right; left. rewrite planWithHttpService_diagnostics in H.
    destruct (env_value (CLAUDE_FLOW_URL env)) as [u | ]; [ | destruct H ].
    destruct (http_post env u task) as [e' | e' | d] eqn:Ep;
      try (now destruct H).
    destruct H as [[= <- <-] | []]. split; [ reflexivity | now exists u ].
  - right; right. rewrite planWithCliCommand_diagnostics in H.
    destruct (env_value (CLAUDE_FLOW_CMD env)) as [c | ]; [ | destruct H ].
    destruct (exec_shell env (cli_command c task)) as [o | e'] eqn:Ex;
      [ destruct H | ].
    destruct H as [[= <- <-] | []]. split; [ reflexivity | now exists c ].
Qed.

(** The CLI entry in the log of the environment where the three optional
    transports fail. *)
Lemma claudePlan_diagnostics_sound_witness :
  exists c,
    env_value (CLAUDE_FLOW_CMD all_failing_env) = Some c
    /\ exec_shell all_failing_env (cli_command c "Add logging")
       = Thrown (boom "Command failed: exit code 1").
Proof.
  assert (H : In ("CLI command error (falling back):",
                  boom "Command failed: exit code 1")
                 (diagnostics (claudePlan all_failing_env "Add logging")))
    by (right; left; reflexivity).
  destruct (claudePlan_diagnostics_sound _ _ _ _ H)
    as [(Hl & _) | [(Hl & _) | (_ & Hc)]];
    [ discriminate Hl | discriminate Hl | exact Hc ].
Defined.

(** *** The CLI command *)

Lemma escape_quotes_without_quote s :
  has_quote s = false -> escape_quotes s = s.
Proof.
  induction s as [ | c s IH]; simpl; [ reflexivity | ].
  destruct (Ascii.eqb c dquote); [ discriminate | ].
  simpl. intros H. now rewrite IH.
Qed.

Lemma escape_quotes_escaped s b : quotes_escaped b (escape_quotes s) = true.
Proof.
  revert b. induction s as [ | c s IH]; intros b; [ reflexivity | ].
  cbn [escape_quotes]. destruct (Ascii.eqb c dquote) eqn:E.
  - cbn [quotes_escaped]. rewrite Ascii.eqb_refl.
    replace (Ascii.eqb backslash dquote) with false by reflexivity.
    rewrite orb_true_r, IH. now destruct b.
  - cbn [quotes_escaped]. rewrite E, IH. reflexivity.
Qed.

(** X4: in the command line handed to the shell every double quote of
    the task stands after a backslash, and nothing else is changed: a task
    without double quotes, backslashes included, is passed as it is
    between two double quotes after the command and a space. *)
Theorem cli_command_quoting cmd task :
  quotes_escaped false (escape_quotes task) = true
  /\ (has_quote task = false ->
      cli_command cmd task
      = cmd ++ " " ++ String dquote (task ++ String dquote "")).
Proof.
  split; [ apply escape_quotes_escaped | ].
  intros H. unfold cli_command. now rewrite escape_quotes_without_quote.
Qed.

Lemma cli_command_quoting_witness :
  cli_command "claude-flow" "Add logging"
  = "claude-flow " ++ String dquote ("Add logging" ++ String dquote "").
Proof.
  apply (proj2 (cli_command_quoting "claude-flow" "Add logging")).
  reflexivity.
Defined.

(** X5: a CLI command that runs gives its standard output, trimmed, as
    the content whenever that is not blank, whatever it wrote to standard
    error; standard error, trimmed, is used only when the output is blank;
    when both are blank the stage hands over nothing. *)
Theorem planWithCliCommand_prefers_stdout env task cmd out err :
  env_value (CLAUDE_FLOW_CMD env) = Some cmd ->
  exec_shell env (cli_command cmd task) = Returned (out, err) ->
  outcome (planWithCliCommand env task)
  = if truthy (trim out) then Returned (Some (cli_result (trim out)))
    else if truthy (trim err) then Returned (Some (cli_result (trim err)))
    else Returned None.
Proof.
  intros Hc Hx. rewrite planWithCliCommand_outcome, Hc, Hx.
  unfold or_else. destruct (truthy (trim out)) eqn:Eo; [ now rewrite Eo | ].
  destruct (truthy (trim err)); reflexivity.
Qed.

Lemma planWithCliCommand_prefers_stdout_witness :
  outcome (planWithCliCommand cli_only_env "Add logging")
  = Returned (Some (cli_result "warning: slow")).
Proof.
  exact (planWithCliCommand_prefers_stdout cli_only_env "Add logging"
           "claude-flow" (" " ++ nl) " warning: slow " eq_refl eq_refl).
Defined.

(** *** The text of an Anthropic message *)

(** X6: a content block that is not a text block (another type, or no
    string in [text]) adds nothing to the content read from a message,
    not even a separator. *)
Theorem message_text_skips_other_blocks before b after :
  is_text_block b = false ->
  message_text (mkMessage (Some (before ++ b :: after)%list))
  = message_text (mkMessage (Some (before ++ after)%list)).
Proof.
  intros H. unfold message_text. cbn [content].
  rewrite !filter_app. cbn [filter]. now rewrite H.
Qed.

Lemma message_text_skips_other_blocks_witness :
  message_text
    (mkMessage (Some [mkBlock "text" (Some "One");
                      mkBlock "tool_use" None;
                      mkBlock "text" (Some "Two")]))
  = "One" ++ nl ++ "Two".
Proof.
  exact (message_text_skips_other_blocks
           [mkBlock "text" (Some "One")] (mkBlock "tool_use" None)
           [mkBlock "text" (Some "Two")] eq_refl).
Defined.

End PlannerTheorems.

(* ===================================================================== *)
(** ** The merge protocol and the command: further properties            *)
(* ===================================================================== *)

Module MergeMore.
Import Js Regex Orchestrator ClaudePlanner TextFacts ChainFacts MoreFacts
  JanusMain.
Import ChainTheorems MergeTheorems ExtractTheorems PlannerTheorems.

(** *** The merged prompt by cases *)

Lemma append_empty_r s : s ++ "" = s.
Proof. induction s as [ | c s IH]; simpl; [ reflexivity | now rewrite IH ]. Qed.

Lemma join_two x y : join "" [x; y] = x ++ y.
Proof. reflexivity. Qed.

Lemma join_three x y z : join "" [x; y; z] = x ++ y ++ z.
Proof. reflexivity. Qed.

(** The considerations that [mergeSystemPrompts] adds for these cores. *)
Lemma mergeSystemPrompts_cases task codexPrompt claudePrompt :
  let core := extractSystemPrompt codexPrompt in
  let other := extractSystemPrompt claudePrompt in
  let refs :=
    if truthy other && negb (String.eqb other core)
    then refinements other else "" in
  mergeSystemPrompts task codexPrompt claudePrompt
  = if truthy core
    then "Task: " ++ task ++ nl ++ "Approach: " ++ core
         ++ (if truthy refs then nl ++ "Considerations: " ++ refs else "")
    else if truthy refs
         then "Task: " ++ task ++ nl ++ "Considerations: " ++ refs
         else task ++ nl ++ nl ++ default_phrase.
Proof.
  cbv zeta. unfold mergeSystemPrompts, refinements.
  set (core := extractSystemPrompt codexPrompt).
  set (other := extractSystemPrompt claudePrompt).
  set (refs := join "; " (filter is_refinement_line (split_lines other))).
  destruct (truthy core) eqn:Ec;
    destruct (truthy other && negb (String.eqb other core));
    try destruct (truthy refs) eqn:Er; unfold push; cbn [app List.length Nat.leb];
    rewrite ?join_two, ?join_three, ?Ec, ?append_assoc;
    cbn [truthy or_else];
    rewrite ?append_assoc; try reflexivity.
  all: first [ now rewrite append_empty_r
             | unfold or_else; now rewrite Ec ].
Qed.

Lemma append_nonempty_r a b : b <> "" -> a ++ b <> "".
Proof. destruct a; simpl; [ auto | discriminate ]. Qed.

(** X7: the merged prompt has one of two shapes.  It is the task, a blank
    line and the default phrase, or it starts with the line "Task: <task>"
    followed by further lines.  The fallback never shows the primary
    planner's text: the core is empty whenever that branch is taken. *)
Theorem mergeSystemPrompts_shapes task codexPrompt claudePrompt :
  mergeSystemPrompts task codexPrompt claudePrompt
  = task ++ nl ++ nl ++ "Execute the task with precision and clarity."
  \/ exists rest,
       rest <> ""
       /\ mergeSystemPrompts task codexPrompt claudePrompt
          = "Task: " ++ task ++ nl ++ rest.
Proof.
  rewrite mergeSystemPrompts_cases. cbv zeta.
  destruct (truthy (extractSystemPrompt codexPrompt)).
  - right. eexists. split; [ | reflexivity ]. discriminate.
  - match goal with |- context [if truthy ?r then _ else _] =>
      destruct (truthy r) end.
    + right. eexists. split; [ | reflexivity ]. discriminate.
    + now left.
Qed.

(** X8: the merged prompt of [planWithJanus] is never empty. *)
Theorem mergedPrompt_nonempty task codexR claudeR :
  mergedPrompt (planWithJanus task codexR claudeR) <> "".
Proof.
  unfold planWithJanus, mergedPrompt.
  rewrite mergeSystemPrompts_cases. cbv zeta.
  repeat match goal with |- context [if ?c then _ else _] => destruct c end;
    try discriminate;
    apply append_nonempty_r; discriminate.
Qed.

(** X9: when both planners return the same system prompt text, the merged
    prompt has no "Considerations" line: it is the task line and the
    "Approach" line with the core, or the fallback when the core is
    empty. *)
Theorem mergedPrompt_of_equal_outputs task codexR claudeR :
  systemPrompt codexR = systemPrompt claudeR ->
  mergedPrompt (planWithJanus task codexR claudeR)
  = let core :=
      extractSystemPrompt (extractSystemPrompt (systemPrompt codexR)) in
    if truthy core
    then "Task: " ++ task ++ nl ++ "Approach: " ++ core
    else task ++ nl ++ nl ++ default_phrase.
Proof.
  intros H. unfold planWithJanus, mergedPrompt.
  rewrite mergeSystemPrompts_cases, <- H. cbv zeta.
  rewrite String.eqb_refl, andb_false_r. cbn [truthy].
  now rewrite append_empty_r.
Qed.

Lemma mergedPrompt_of_equal_outputs_witness :
  mergedPrompt
    (planWithJanus "Add logging"
       (mkPlanResult codex_provider secondary_raw "" "")
       (mkPlanResult claude_provider secondary_raw "" ""))
  = "Task: Add logging" ++ nl
    ++ "Approach: Consider edge cases. Note potential race.".
Proof.
  exact (mergedPrompt_of_equal_outputs "Add logging"
           (mkPlanResult codex_provider secondary_raw "" "")
           (mkPlanResult claude_provider secondary_raw "" "") eq_refl).
Defined.

Lemma filter_none {A} (p : A -> bool) l :
  forallb (fun x => negb (p x)) l = true -> filter p l = [].
Proof.
  induction l as [ | x l IH]; simpl; [ reflexivity | ].
  destruct (p x); simpl; [ discriminate | assumption ].
Qed.

(** X10: a secondary output none of whose core lines holds one of the
    words "consider", "ensure", "avoid" or "note" leaves the merged prompt
    as it is without any secondary output. *)
Theorem mergeSystemPrompts_ignores_plain_secondary task codexPrompt claudePrompt :
  forallb (fun line => negb (is_refinement_line line))
          (split_lines (extractSystemPrompt claudePrompt)) = true ->
  mergeSystemPrompts task codexPrompt claudePrompt
  = mergeSystemPrompts task codexPrompt "".
Proof.
  intros H. rewrite !mergeSystemPrompts_cases. cbv zeta.
  change (extractSystemPrompt "") with "". cbn [truthy andb].
  unfold refinements. rewrite (filter_none _ _ H). cbn [join truthy].
  destruct (truthy (extractSystemPrompt claudePrompt)
            && negb (String.eqb (extractSystemPrompt claudePrompt)
                                (extractSystemPrompt codexPrompt)));
    reflexivity.
Qed.

Lemma mergeSystemPrompts_ignores_plain_secondary_witness :
  mergeSystemPrompts "Add logging" "Build it carefully"
    ("Use a logger." ++ nl ++ "Keep it small.")
  = "Task: Add logging" ++ nl ++ "Approach: Build it carefully".
Proof.
  rewrite (mergeSystemPrompts_ignores_plain_secondary "Add logging"
             "Build it carefully" ("Use a logger." ++ nl ++ "Keep it small."))
    by reflexivity.
  reflexivity.
Defined.

(** *** Notes for a result of the Claude planner *)



End MergeMore.

(* ===================================================================== *)
(** ** The three patterns as one family                                   *)
(* ===================================================================== *)

Module PatternTheorems.
Import Js Regex Orchestrator TextFacts MoreFacts ExtractTheorems.

Lemma systemPromptRe_labelled :
  systemPromptRe
  = labelled system_labels
      (terminator_of ["PLAN"; "Plan"; "RATIONALE"; "Rationale"]).
Proof. reflexivity. Qed.

Lemma planRe_labelled :
  planRe = labelled plan_labels (terminator_of after_plan_labels).
Proof. reflexivity. Qed.

Lemma rationaleRe_labelled : rationaleRe = labelled rationale_labels Eol.
Proof. reflexivity. Qed.

(** *** Alternations of literals *)

Lemma In_alts f ps b s w :
  ps <> [] -> In w (ways f (alts ps) b s) ->
  exists p, In p ps /\ In w (lit_ways f p s).
Proof.
  induction ps as [ | p ps IH]; intros Hne H; [ contradiction | ].
  destruct ps as [ | q ps].
  - exists p. split; [ now left | exact H ].
  - change (ways f (alts (p :: q :: ps)) b s)
      with (lit_ways f p s ++ ways f (alts (q :: ps)) b s)%list in H.
    apply in_app_or in H. destruct H as [H | H].
    + exists p. split; [ now left | exact H ].
    + destruct (IH ltac:(discriminate) H) as (p' & Hp' & Hw).
      exists p'. split; [ now right | exact Hw ].
Qed.

Lemma alts_In f ps b s w p :
  In p ps -> In w (lit_ways f p s) -> In w (ways f (alts ps) b s).
Proof.
  induction ps as [ | q ps IH]; intros Hp Hw; [ destruct Hp | ].
  destruct ps as [ | q' ps].
  - destruct Hp as [<- | []]. exact Hw.
  - change (ways f (alts (q :: q' :: ps)) b s)
      with (lit_ways f q s ++ ways f (alts (q' :: ps)) b s)%list.
    apply in_or_app. destruct Hp as [<- | Hp]; [ now left | right ].
    now apply IH.
Qed.

Lemma any_label_at_false ps s p :
  any_label_at ps s = false -> In p ps -> starts_ci (p ++ ":") s = false.
Proof.
  unfold any_label_at. intros H Hp.
  destruct (starts_ci (p ++ ":") s) eqn:E; [ | reflexivity ].
  assert (T : existsb (fun l => starts_ci (l ++ ":") s) ps = true)
    by (apply existsb_exists; now exists p).
  rewrite T in H. discriminate H.
Qed.

(** Where none of the labels stands, the pattern after the line start
    has no way. *)
Lemma labelled_none ps K b s :
  ps <> [] -> any_label_at ps s = false ->
  ways flags_is (Seq (alts ps) (Seq (Lit ":") K)) b s = [].
Proof.
  intros Hne H. apply seq_none_single. intros w Hw.
  destruct (In_alts _ _ _ _ _ Hne Hw) as (p & Hp & Hin).
  eapply colon_after_lit_none; [ | exact Hin ].
  now apply (any_label_at_false ps).
Qed.

Lemma pattern_no_way ps K b s :
  ps <> [] ->
  (b = true -> any_label_at ps s = false) ->
  (forall s', s = String LF s' -> any_label_at ps s' = false) ->
  ways flags_is (Seq line_start (Seq (alts ps) (Seq (Lit ":") K))) b s = [].
Proof.
  intros Hne Hb Hlf. apply seq_none_single.
  intros w Hw. rewrite ways_line_start in Hw.
  apply in_app_or in Hw. destruct Hw as [Hw | Hw].
  - destruct b; [ | destruct Hw ]. destruct Hw as [<- | []].
    apply labelled_none; auto.
  - pose proof (In_lit_ways _ _ _ Hw) as [Hs Hr].
    destruct s as [ | a s]; [ discriminate Hs | ].
    change (starts_ci nl (String a s)) with
      (Ascii.eqb (canon LF) (canon a) && true) in Hs.
    rewrite andb_true_r in Hs. change (canon LF) with LF in Hs.
    rewrite Ascii.eqb_sym, canon_LF in Hs. apply Ascii.eqb_eq in Hs.
    subst a. rewrite Hr. apply labelled_none; auto.
Qed.

Lemma any_label_at_empty ps : any_label_at ps "" = false.
Proof.
  unfold any_label_at. induction ps as [ | p ps IH]; [ reflexivity | ].
  cbn [existsb]. rewrite IH. now destruct p.
Qed.

(** An input without a labelled line is not matched. *)
Lemma search_without_label ps K :
  ps <> [] ->
  forall s b,
    (b = true -> any_label_at ps s = false) ->
    no_labels_after_lf ps s = true ->
    search flags_is (Seq line_start (Seq (alts ps) (Seq (Lit ":") K))) b s
    = None.
Proof.
  intros Hne. induction s as [ | c s IH]; intros b Hb Hn.
  - cbn [search].
    rewrite pattern_no_way;
      [ reflexivity | exact Hne | intros _; apply any_label_at_empty
      | discriminate ].
  - rewrite search_cons.
    cbn [no_labels_after_lf] in Hn. apply andb_true_iff in Hn.
    destruct Hn as [Hc Hn].
    rewrite pattern_no_way;
      [ apply IH; [ discriminate | exact Hn ] | exact Hne | exact Hb | ].
    intros s' E. injection E as Ec Es. subst c s'.
    rewrite Ascii.eqb_refl in Hc. now apply negb_true_iff in Hc.
Qed.

Lemma exec_without_label ps T s :
  ps <> [] -> no_labelled_line ps s = true ->
  exec flags_is (labelled ps T) s = None.
Proof.
  intros Hne H. unfold no_labelled_line in H. apply andb_true_iff in H.
  destruct H as [H0 Hn]. apply negb_true_iff in H0.
  unfold exec, labelled. apply search_without_label; auto.
Qed.

(** *** The label of a match *)

Lemma first_group_not_nil g : ~ first_group [] g.
Proof. intros (w & tl & H & _). discriminate H. Qed.

Lemma first_group_map_glue w1 l g :
  first_group l g -> first_group (map (glue w1) l) g.
Proof.
  intros (w & tl & -> & Hg). exists (glue w1 w), (map (glue w1) tl).
  split; [ reflexivity | now apply group1_glue ].
Qed.

(** The first group of a sequence, when every way of the first part is
    either a dead end or leads to the same group. *)
Lemma flat_map_first_group (G : way -> list way) l g :
  (forall w, In w l -> G w = [] \/ first_group (G w) g) ->
  (exists w, In w l /\ first_group (G w) g) ->
  first_group (flat_map G l) g.
Proof.
  induction l as [ | w l IH]; intros Hall (w0 & Hin & Hw0);
    [ destruct Hin | ].
  cbn [flat_map].
  destruct (Hall w (or_introl eq_refl)) as [Hnil | (w2 & tl & Hw & Hg)].
  - rewrite Hnil. cbn [app]. apply IH.
    + intros w' Hw'. apply Hall. now right.
    + destruct Hin as [<- | Hin].
      * rewrite Hnil in Hw0. now apply first_group_not_nil in Hw0.
      * now exists w0.
  - rewrite Hw. cbn [app]. now exists w2, (tl ++ flat_map G l)%list.
Qed.

Lemma colon_free_ci_eq p l :
  ci_eq p l = true -> colon_free p = true -> colon_free l = true.
Proof.
  revert l. induction p as [ | a p IH]; intros l H Hp;
    destruct l as [ | c l]; try discriminate; [ reflexivity | ].
  cbn [ci_eq] in H. apply andb_true_iff in H. destruct H as [Hac H].
  cbn [colon_free] in Hp |- *. apply andb_true_iff in Hp.
  destruct Hp as [Ha Hp]. apply Ascii.eqb_eq in Hac.
  rewrite <- Hac, Ha. now apply IH.
Qed.

(** A colon-free literal that starts in a colon-free label and is
    followed by a colon ends where the label ends. *)
Lemma colon_aligns p :
  forall label u,
    colon_free p = true -> colon_free label = true ->
    starts_ci p (label ++ ":" ++ u) = true ->
    starts_ci ":" (drop (String.length p) (label ++ ":" ++ u)) = true ->
    drop (String.length p) (label ++ ":" ++ u) = ":" ++ u
    /\ take (String.length p) (label ++ ":" ++ u) = label.
Proof.
  induction p as [ | a p IH]; intros label u Hp Hl Hs Hc.
  - destruct label as [ | c l]; [ now split | ].
    exfalso. cbn [String.length drop append starts_ci] in Hc.
    cbn [colon_free] in Hl. apply andb_true_iff in Hl. destruct Hl as [Hl _].
    apply andb_true_iff in Hc. destruct Hc as [Hc _].
    change (canon ":") with ":"%char in Hc.
    rewrite Ascii.eqb_sym, Hc in Hl. discriminate Hl.
  - cbn [colon_free] in Hp. apply andb_true_iff in Hp. destruct Hp as [Ha Hp].
    destruct label as [ | c l].
    + exfalso. change ("" ++ ":" ++ u) with (String ":" u) in Hs.
      cbn [starts_ci] in Hs. apply andb_true_iff in Hs. destruct Hs as [Hs _].
      change (canon ":") with ":"%char in Hs. rewrite Hs in Ha.
      discriminate Ha.
    + cbn [colon_free] in Hl. apply andb_true_iff in Hl.
      destruct Hl as [_ Hl].
      cbn [append starts_ci] in Hs. apply andb_true_iff in Hs.
      destruct Hs as [_ Hs].
      cbn [String.length drop take append] in Hc |- *.
      destruct (IH l u Hp Hl Hs Hc) as [Hd Ht].
      split; [ exact Hd | exact (f_equal (String c) Ht) ].
Qed.

Lemma colon_free_of ps p :
  forallb colon_free ps = true -> In p ps -> colon_free p = true.
Proof. intros H Hp. rewrite forallb_forall in H. now apply H. Qed.

Lemma ways_colon_first_group K b u g :
  (forall b', first_group (ways flags_is K b' u) g) ->
  first_group (ways flags_is (Seq (Lit ":") K) b (":" ++ u)) g.
Proof.
  intros HK. eapply seq_first_group.
  - rewrite ways_Lit, (lit_ways_ci_eq ":" ":") by reflexivity. now eexists.
  - apply HK.
Qed.

(** The match from the label on: whichever alternatives fit the front of
    the input, the group is that of the continuation after the colon. *)
Lemma labelled_first_group ps K label u g :
  forallb colon_free ps = true ->
  is_label_of ps label = true ->
  (forall b', first_group (ways flags_is K b' u) g) ->
  forall b,
    first_group
      (ways flags_is (Seq (alts ps) (Seq (Lit ":") K)) b (label ++ ":" ++ u))
      g.
Proof.
  intros Hcf Hl HK b.
  unfold is_label_of in Hl. apply existsb_exists in Hl.
  destruct Hl as (p0 & Hp0 & Hci).
  assert (Hne : ps <> []) by (intros ->; destruct Hp0).
  assert (Hlab : colon_free label = true)
    by (apply (colon_free_ci_eq p0); [ exact Hci | now apply (colon_free_of ps) ]).
  rewrite ways_Seq. apply flat_map_first_group.
  - intros w Hw. destruct (In_alts _ _ _ _ _ Hne Hw) as (p & Hp & Hin).
    apply In_lit_ways in Hin. destruct Hin as [Hs Hr]. rewrite Hr.
    destruct (starts_ci ":" (drop (String.length p) (label ++ ":" ++ u)))
      eqn:Ec.
    + right.
      destruct (colon_aligns p label u (colon_free_of ps p Hcf Hp) Hlab Hs Ec)
        as [Hd _].
      rewrite Hd. apply first_group_map_glue.
      now apply ways_colon_first_group.
    + left. rewrite ways_Seq, ways_Lit, (lit_ways_none _ _ Ec). reflexivity.
  - exists (mkWay label None (":" ++ u)). split.
    + apply (alts_In _ ps _ _ _ p0 Hp0).
      rewrite (lit_ways_ci_eq _ _ _ Hci). now left.
    + cbn [rest consumed]. apply first_group_map_glue.
      now apply ways_colon_first_group.
Qed.

(** *** The group of a match *)

(** The lazy group runs to the first place where the pattern [T] that
    follows it has a way. *)
Lemma capture_runs_to T tail b body :
  (forall b', exists w tl,
      ways flags_is T b' tail = w :: tl /\ group1 w = None) ->
  (forall t1 t2, body = t1 ++ t2 -> t2 <> "" ->
     forall b', ways flags_is T b' (t2 ++ tail) = []) ->
  forall acc c,
    first_group
      (flat_map
         (fun w1 =>
            map (glue w1)
                (ways flags_is T (b && negb (truthy (consumed w1))) (rest w1)))
         (map (fun w => mkWay (consumed w) (Some (consumed w)) (rest w))
              (map (prepend acc)
                   (plus_ways flags_is Dot (String c body ++ tail)))))
      (acc ++ String c body).
Proof.
  intros Hend. induction body as [ | d body IH]; intros Hin acc c.
  - change (String c "" ++ tail) with (String c tail).
    rewrite plus_ways_dot. cbn [map flat_map].
    cbn [rest prepend shift empty_way consumed group1].
    destruct (Hend (b && negb (truthy (acc ++ String c ""))))
      as (wt & tl & -> & Hgt).
    cbn [map app]. eexists _, _. split; [ reflexivity | ].
    unfold glue. cbn [group1]. now rewrite Hgt.
  - change (String c (String d body) ++ tail)
      with (String c (String d body ++ tail)).
    rewrite plus_ways_dot. cbn [map flat_map].
    cbn [rest prepend shift empty_way consumed group1].
    rewrite (Hin "" (String d body) eq_refl) by discriminate.
    cbn [map app]. rewrite (map_map (shift c) (prepend acc)).
    rewrite (map_ext _ _ (prepend_shift acc c)).
    assert (Hin' : forall t1 t2, body = t1 ++ t2 -> t2 <> "" ->
                     forall b', ways flags_is T b' (t2 ++ tail) = []).
    { intros t1 t2 -> Hne. apply (Hin (String d t1) t2 eq_refl Hne). }
    specialize (IH Hin' (acc ++ String c "") d).
    rewrite append_assoc in IH. exact IH.
Qed.

Lemma section_tail_first_group T gap c body tail b :
  all_space gap = true ->
  is_space c = false ->
  (forall b', exists w tl,
      ways flags_is T b' tail = w :: tl /\ group1 w = None) ->
  (forall t1 t2, body = t1 ++ t2 -> t2 <> "" ->
     forall b', ways flags_is T b' (t2 ++ tail) = []) ->
  first_group
    (ways flags_is (section_tail T) b (gap ++ String c body ++ tail))
    (String c body).
Proof.
  intros Hg Hc Hend Hin. unfold section_tail.
  eapply seq_first_group.
  { change (gap ++ String c body ++ tail)
      with (gap ++ String c (body ++ tail)).
    apply (star_space_head gap c _ Hg Hc). }
  cbn [rest consumed].
  eapply seq_first_group.
  { rewrite opt_nl_visible by assumption. now eexists. }
  cbn [rest consumed empty_way].
  pose proof (capture_runs_to T tail
                (b && negb (truthy gap) && negb (truthy "")) body
                Hend Hin "" c) as H.
  rewrite (map_ext _ _ prepend_empty), map_id in H. exact H.
Qed.

(** *** The search for the first labelled line *)

Lemma lf_free_label_at_LF ps s :
  forallb (fun l => lf_free (l ++ ":")) ps = true ->
  any_label_at ps (String LF s) = false.
Proof.
  unfold any_label_at. induction ps as [ | p ps IH]; intros H;
    [ reflexivity | ].
  cbn [forallb] in H. apply andb_true_iff in H. destruct H as [Hp H].
  cbn [existsb]. rewrite (IH H), orb_false_r.
  destruct (p ++ ":") as [ | a q] eqn:E; [ now destruct p | ].
  cbn [lf_free] in Hp. apply andb_true_iff in Hp. destruct Hp as [Ha _].
  apply negb_true_iff in Ha.
  cbn [starts_ci]. change (canon LF) with LF. now rewrite Ha.
Qed.

Lemma any_label_at_line_end ps q t :
  forallb (fun l => lf_free (l ++ ":")) ps = true ->
  ends_line q = true -> q <> "" ->
  any_label_at ps (q ++ t) = any_label_at ps q.
Proof.
  intros H Hq Hne. unfold any_label_at.
  induction ps as [ | p ps IH]; [ reflexivity | ].
  cbn [forallb] in H. apply andb_true_iff in H. destruct H as [Hp H].
  cbn [existsb]. rewrite (IH H). f_equal.
  now apply starts_ci_line_end.
Qed.

(** The match at the first labelled line, started at the front of the
    input or at the line feed before the label. *)
Lemma labelled_match_at (at_lf b : bool) ps T label u g :
  (at_lf = false -> b = true) ->
  forallb colon_free ps = true ->
  forallb (fun l => lf_free (l ++ ":")) ps = true ->
  is_label_of ps label = true ->
  (forall b', first_group (ways flags_is (section_tail T) b' u) g) ->
  first_group
    (ways flags_is (labelled ps T) b
       ((if at_lf then nl else "") ++ label ++ ":" ++ u))
    g.
Proof.
  intros Hb Hcf Hlf Hl HK.
  set (L := label ++ ":" ++ u).
  assert (Hne : ps <> []).
  { unfold is_label_of in Hl. apply existsb_exists in Hl.
    destruct Hl as (p0 & Hp0 & _). intros ->. destruct Hp0. }
  unfold labelled. rewrite ways_Seq, ways_line_start.
  destruct at_lf.
  - change (nl ++ L) with (String LF L). rewrite lit_ways_nl.
    pose proof (labelled_first_group ps (section_tail T) label u g
                  Hcf Hl HK (b && negb (truthy nl))) as HX.
    fold L in HX. destruct HX as (w & tl & Hw & Hgr).
    destruct b; cbn [app flat_map rest consumed empty_way].
    + rewrite labelled_none;
        [ | exact Hne | now apply lf_free_label_at_LF ].
      cbn [map app]. rewrite Hw. cbn [map app].
      eexists _, _. split; [ reflexivity | now apply group1_glue ].
    + rewrite Hw. cbn [map app].
      eexists _, _. split; [ reflexivity | now apply group1_glue ].
  - rewrite (Hb eq_refl). change ("" ++ L) with L.
    cbn [app flat_map rest consumed empty_way].
    pose proof (labelled_first_group ps (section_tail T) label u g
                  Hcf Hl HK (true && negb (truthy ""))) as HX.
    fold L in HX. destruct HX as (w & tl & Hw & Hgr).
    rewrite Hw. cbn [map app].
    eexists _, _. split; [ reflexivity | now apply group1_glue ].
Qed.

Lemma search_first_labelled ps T L g :
  ps <> [] ->
  forallb (fun l => lf_free (l ++ ":")) ps = true ->
  (forall b, first_group (ways flags_is (labelled ps T) b (String LF L)) g) ->
  forall q b,
    ends_line q = true -> q <> "" ->
    (b = true -> any_label_at ps q = false) ->
    no_labels_after_lf ps q = true ->
    exists w,
      search flags_is (labelled ps T) b (q ++ L) = Some w
      /\ group1 w = Some g.
Proof.
  intros Hps Hlf M. induction q as [ | c q IH]; intros b Hq Hne Hb Hn;
    [ contradiction | ].
  cbn [append]. rewrite search_cons.
  destruct q as [ | d q].
  - cbn [ends_line] in Hq. apply Ascii.eqb_eq in Hq. subst c.
    destruct (M b) as (w & tl & Hw & Hg).
    change ("" ++ L) with L. rewrite Hw. now exists w.
  - cbn [no_labels_after_lf] in Hn. apply andb_true_iff in Hn.
    destruct Hn as [Hc Hn].
    assert (Hq' : ends_line (String d q) = true)
      by (now rewrite ends_line_cons in Hq by discriminate).
    unfold labelled at 1.
    rewrite pattern_no_way; [ | exact Hps | | ].
    + apply IH; [ assumption | discriminate | discriminate | exact Hn ].
    + intros Hbt.
      change (String c (String d q ++ L)) with (String c (String d q) ++ L).
      rewrite any_label_at_line_end by (assumption || discriminate). auto.
    + intros s' E. injection E as Ec Es. subst c s'.
      rewrite Ascii.eqb_refl in Hc. apply negb_true_iff in Hc.
      change (any_label_at ps (String d q ++ L) = false).
      rewrite any_label_at_line_end by (assumption || discriminate).
      exact Hc.
Qed.

(** A labelled section that is the first of the input is what the
    pattern matches, and its text is the group. *)
Lemma exec_first_labelled ps T pre label gap c body tail :
  forallb colon_free ps = true ->
  forallb (fun l => lf_free (l ++ ":")) ps = true ->
  ends_line pre = true ->
  no_labelled_line ps pre = true ->
  is_label_of ps label = true ->
  all_space gap = true ->
  is_space c = false ->
  (forall b', exists w tl,
      ways flags_is T b' tail = w :: tl /\ group1 w = None) ->
  (forall t1 t2, body = t1 ++ t2 -> t2 <> "" ->
     forall b', ways flags_is T b' (t2 ++ tail) = []) ->
  exists w,
    exec flags_is (labelled ps T)
         (pre ++ label ++ ":" ++ gap ++ String c body ++ tail) = Some w
    /\ group1 w = Some (String c body).
Proof.
  intros Hcf Hlf Hpre Hno Hl Hg Hc Hend Hin.
  assert (HK : forall b',
             first_group
               (ways flags_is (section_tail T) b'
                     (gap ++ String c body ++ tail)) (String c body))
    by (intros b'; now apply section_tail_first_group).
  assert (Hne : ps <> []).
  { unfold is_label_of in Hl. apply existsb_exists in Hl.
    destruct Hl as (p0 & Hp0 & _). intros ->. destruct Hp0. }
  unfold exec.
  destruct pre as [ | p pre].
  - pose proof (labelled_match_at false true ps T label
                  (gap ++ String c body ++ tail) (String c body)
                  (fun _ => eq_refl) Hcf Hlf Hl HK) as (w & tl & Hw & Hgr).
    exists w. split; [ | exact Hgr ].
    cbv iota in Hw. change ("" ++ ?x) with x in Hw |- *.
    destruct (label ++ ":" ++ gap ++ String c body ++ tail) as [ | x xs];
      cbn [search]; now rewrite Hw.
  - unfold no_labelled_line in Hno. apply andb_true_iff in Hno.
    destruct Hno as [H0 Hafter]. apply negb_true_iff in H0.
    apply search_first_labelled;
      [ exact Hne | exact Hlf | | assumption | discriminate | auto
      | assumption ].
    intros b.
    apply (labelled_match_at true b ps T label
             (gap ++ String c body ++ tail) (String c body));
      [ discriminate | assumption .. ].
Qed.

(** *** What ends a section *)

Lemma cap_free_alts ps : cap_free (alts ps) = true.
Proof.
  induction ps as [ | p ps IH]; [ reflexivity | ].
  destruct ps as [ | q ps]; [ reflexivity | ].
  change (alts (p :: q :: ps)) with (Alt (Lit p) (alts (q :: ps))).
  cbn [cap_free]. exact IH.
Qed.

Lemma ways_terminator_of qs b r :
  ways flags_is (terminator_of qs) b r
  = (lit_ways flags_is (nl ++ nl) r
     ++ ways flags_is (Seq (Lit nl) (Seq (alts qs) (Lit ":"))) b r
     ++ ways flags_is Eol b r)%list.
Proof. reflexivity. Qed.

Lemma starts_nl a s : starts_ci nl (String a s) = true -> a = LF.
Proof.
  change (starts_ci nl (String a s))
    with (Ascii.eqb (canon LF) (canon a) && true).
  rewrite andb_true_r. change (canon LF) with LF.
  rewrite Ascii.eqb_sym, canon_LF. apply Ascii.eqb_eq.
Qed.

(** Where none of the next labels starts the next line, the second
    alternative of the terminator has no way. *)
Lemma next_label_none_of qs r b :
  qs <> [] ->
  (forall s', r = String LF s' -> any_label_at qs s' = false) ->
  ways flags_is (Seq (Lit nl) (Seq (alts qs) (Lit ":"))) b r = [].
Proof.
  intros Hne H. apply seq_none_single. intros w1 Hw1.
  rewrite ways_Lit in Hw1. pose proof (In_lit_ways _ _ _ Hw1) as [Hs Hr].
  destruct r as [ | a r]; [ discriminate Hs | ].
  apply starts_nl in Hs. subst a. rewrite Hr.
  change (drop (String.length nl) (String LF r)) with r.
  apply seq_none_single. intros w2 Hw2.
  destruct (In_alts _ _ _ _ _ Hne Hw2) as (p & Hp & Hin).
  eapply lit_colon_none; [ | exact Hin ].
  apply (any_label_at_false qs); [ now apply H | exact Hp ].
Qed.

(** Inside the section text the terminator has no way. *)
Lemma terminator_of_none qs r b :
  qs <> [] -> boundary_of qs r = false -> r <> "" ->
  ways flags_is (terminator_of qs) b r = [].
Proof.
  unfold boundary_of. intros Hne H Hr.
  apply orb_false_iff in H. destruct H as [HB HL].
  rewrite ways_terminator_of.
  rewrite lit_ways_none by now rewrite starts_ci_blank_line.
  rewrite next_label_none_of;
    [ | exact Hne
      | intros s' ->; now rewrite Ascii.eqb_refl, andb_true_l in HL ].
  destruct r; [ contradiction | reflexivity ].
Qed.

Lemma next_label_some_of qs s' b :
  any_label_at qs s' = true ->
  ways flags_is (Seq (Lit nl) (Seq (alts qs) (Lit ":"))) b (String LF s')
  <> [].
Proof.
  unfold any_label_at. intros H. apply existsb_exists in H.
  destruct H as (p & Hp & H). rewrite starts_ci_app in H.
  apply andb_true_iff in H. destruct H as [Hlab Hcolon].
  eapply seq_some with (w1 := mkWay nl None s').
  { rewrite ways_Lit, lit_ways_nl. now left. }
  cbn [rest consumed].
  eapply seq_some.
  { eapply alts_In; [ exact Hp | exact (lit_ways_some _ _ Hlab) ]. }
  cbn [rest consumed]. rewrite ways_Lit.
  intros Hnil. pose proof (lit_ways_some _ _ Hcolon) as Hin.
  rewrite Hnil in Hin. destruct Hin.
Qed.

(** Where the section ends, the terminator has a first way, and it binds
    no group. *)
Lemma terminator_of_some qs tail b :
  ends_section_of qs tail = true ->
  exists w tl,
    ways flags_is (terminator_of qs) b tail = w :: tl /\ group1 w = None.
Proof.
  intros H.
  assert (Hne : ways flags_is (terminator_of qs) b tail <> []).
  { rewrite ways_terminator_of. unfold ends_section_of, boundary_of in H.
    apply orb_true_iff in H. destruct H as [H | H].
    - apply orb_true_iff in H. destruct H as [H | H].
      + rewrite <- starts_ci_blank_line in H.
        intros Hnil. apply app_eq_nil in Hnil. destruct Hnil as [Hnil _].
        pose proof (lit_ways_some _ _ H) as Hin.
        rewrite Hnil in Hin. destruct Hin.
      + destruct tail as [ | a s']; [ discriminate H | ].
        apply andb_true_iff in H. destruct H as [Ha H].
        apply Ascii.eqb_eq in Ha. subst a.
        intros Hnil. apply app_eq_nil in Hnil. destruct Hnil as [_ Hnil].
        apply app_eq_nil in Hnil. destruct Hnil as [Hnil _].
        revert Hnil. now apply next_label_some_of.
    - destruct tail; [ | discriminate H ].
      intros Hnil. apply app_eq_nil in Hnil. destruct Hnil as [_ Hnil].
      apply app_eq_nil in Hnil. destruct Hnil as [_ Hnil].
      discriminate Hnil. }
  destruct (ways flags_is (terminator_of qs) b tail) as [ | w tl] eqn:E;
    [ contradiction | ].
  exists w, tl. split; [ reflexivity | ].
  assert (Hc : cap_free (terminator_of qs) = true).
  { unfold terminator_of. cbn [cap_free]. now rewrite cap_free_alts. }
  apply (cap_free_groupless flags_is (terminator_of qs) Hc b tail).
  rewrite E. now left.
Qed.

Lemma no_boundary_of_split qs tail t1 t2 :
  no_boundary_of qs (t1 ++ t2) tail = true -> t2 <> "" ->
  boundary_of qs (t2 ++ tail) = false.
Proof.
  induction t1 as [ | a t1 IH]; intros H Hne.
  - destruct t2 as [ | a t2]; [ contradiction | ].
    change ("" ++ String a t2) with (String a t2) in H.
    cbn [no_boundary_of] in H. apply andb_true_iff in H.
    destruct H as [H _]. now apply negb_true_iff in H.
  - change (String a t1 ++ t2) with (String a (t1 ++ t2)) in H.
    cbn [no_boundary_of] in H. apply andb_true_iff in H.
    destruct H as [_ H]. now apply IH.
Qed.

(** The end of the input ends a section that runs to it. *)
Lemma eol_some b :
  exists w tl, ways flags_is Eol b "" = w :: tl /\ group1 w = None.
Proof. now exists (empty_way ""), []. Qed.

Lemma eol_none t b : t <> "" -> ways flags_is Eol b t = [].
Proof. destruct t; [ contradiction | reflexivity ]. Qed.

End PatternTheorems.

(* ===================================================================== *)
(** ** The extractors: further theorems                                   *)
(* ===================================================================== *)

Module ExtractMore.
Import Js Regex Orchestrator TextFacts MoreFacts ExtractTheorems
  PatternTheorems.

(** *** Trimming *)

Lemma trimEnd_visible_head c t :
  is_space c = false -> trimEnd (String c t) = String c (trimEnd t).
Proof. intros H. cbn [trimEnd]. rewrite H. now destruct (trimEnd t). Qed.

Lemma trimEnd_idem s : trimEnd (trimEnd s) = trimEnd s.
Proof.
  induction s as [ | c s IH]; [ reflexivity | ].
  cbn [trimEnd]. destruct (trimEnd s) as [ | d t] eqn:E.
  - destruct (is_space c) eqn:Hc; [ reflexivity | ].
    cbn [trimEnd]. now rewrite Hc.
  - cbn [trimEnd] in IH |- *.
    change (match trimEnd t with
            | "" => if is_space d then "" else String d ""
            | String a u => String d (String a u)
            end) with (trimEnd (String d t)).
    change (match trimEnd t with
            | "" => if is_space d then "" else String d ""
            | String a u => String d (String a u)
            end) with (trimEnd (String d t)) in IH.
    now rewrite IH.
Qed.

Lemma trimStart_head s :
  trimStart s = ""
  \/ exists c t, trimStart s = String c t /\ is_space c = false.
Proof.
  induction s as [ | c s IH]; [ now left | ].
  cbn [trimStart]. destruct (is_space c) eqn:Hc; [ exact IH | ].
  right. now exists c, s.
Qed.

(** A trimmed text is empty or starts with a visible character. *)
Lemma trim_head s :
  trim s = "" \/ exists c t, trim s = String c t /\ is_space c = false.
Proof.
  unfold trim. destruct (trimStart_head s) as [-> | (c & t & -> & Hc)];
    [ now left | ].
  right. exists c, (trimEnd t). split; [ | exact Hc ].
  now apply trimEnd_visible_head.
Qed.

Lemma trimStart_visible_head c t :
  is_space c = false -> trimStart (String c t) = String c t.
Proof. intros H. cbn [trimStart]. now rewrite H. Qed.

Lemma trim_idem s : trim (trim s) = trim s.
Proof.
  unfold trim at 2 3.
  destruct (trimStart_head s) as [-> | (c & t & -> & Hc)]; [ reflexivity | ].
  rewrite (trimEnd_visible_head c t Hc). unfold trim.
  rewrite (trimStart_visible_head c _ Hc), (trimEnd_visible_head c _ Hc).
  now rewrite trimEnd_idem.
Qed.

Lemma trim_dots s : trim (trim s ++ "...") = trim s ++ "...".
Proof.
  destruct (trim_head s) as [-> | (c & t & -> & Hc)]; [ reflexivity | ].
  change (String c t ++ "...") with (String c (t ++ "...")).
  unfold trim. rewrite (trimStart_visible_head c _ Hc).
  rewrite (trimEnd_visible_head c _ Hc). f_equal.
  change "..." with (".." ++ String "."%char "").
  rewrite <- append_assoc. now apply trimEnd_visible_end.
Qed.

Lemma group1_trimmed_trimmed m : trim (group1_trimmed m) = group1_trimmed m.
Proof.
  unfold group1_trimmed. destruct (group1 m); [ apply trim_idem | reflexivity ].
Qed.

(** X12: what the three extractors return has no white space at its
    start or at its end, on every input: trimming it again changes
    nothing.  This holds for the truncated first line too, whose three
    dots come after the trimming. *)
Theorem extractors_return_trimmed_text content :
  trim (extractSystemPrompt content) = extractSystemPrompt content
  /\ trim (extractPlan content) = extractPlan content
  /\ trim (extractRationale content) = extractRationale content.
Proof.
  split; [ | split ].
  - unfold extractSystemPrompt.
    destruct (exec flags_is systemPromptRe content);
      [ apply group1_trimmed_trimmed | ].
    destruct (nonblank_lines content) as [ | firstParagraph rest];
      [ apply trim_idem | ].
    destruct (200 <? String.length firstParagraph);
      [ apply trim_dots | apply trim_idem ].
  - unfold extractPlan.
    destruct (exec flags_is planRe content);
      [ apply group1_trimmed_trimmed | reflexivity ].
  - unfold extractRationale.
    destruct (exec flags_is rationaleRe content);
      [ apply group1_trimmed_trimmed | reflexivity ].
Qed.

(** *** Sections of the plan and of the rationale *)

(** X13: when the first line of the input that carries a plan label
    ("PLAN:" or "IMPLEMENTATION PLAN:", in any case, at the start of a
    line) is followed by white space and then by text that runs up to the
    first boundary (a blank line, a line starting with the label RATIONALE
    or SYSTEM, or the end of the input), [extractPlan] returns that text,
    trimmed. *)
Theorem extractPlan_first_section pre label gap c body tail :
  ends_line pre = true ->
  no_labelled_line plan_labels pre = true ->
  is_label_of plan_labels label = true ->
  all_space gap = true ->
  is_space c = false ->
  no_boundary_of after_plan_labels body tail = true ->
  ends_section_of after_plan_labels tail = true ->
  extractPlan (pre ++ label ++ ":" ++ gap ++ String c body ++ tail)
  = trim (String c body).
Proof.
  intros Hpre Hno Hl Hg Hc Hb Ht.
  destruct (exec_first_labelled plan_labels (terminator_of after_plan_labels)
              pre label gap c body tail eq_refl eq_refl Hpre Hno Hl Hg Hc)
    as (w & Hw & Hgr).
  - intros b'. now apply terminator_of_some.
  - intros t1 t2 -> Hne b'. apply terminator_of_none.
    + discriminate.
    + now apply (no_boundary_of_split _ _ t1).
    + destruct t2; [ contradiction | discriminate ].
  - unfold extractPlan. rewrite planRe_labelled, Hw.
    unfold group1_trimmed. now rewrite Hgr.
Qed.

(** X13 on an input with an introduction, a plan of two lines and a
    rationale after it. *)
Lemma extractPlan_first_section_witness :
  extractPlan
    ("Here is my proposal." ++ nl ++ "Implementation plan: "
     ++ "1. Add a logger" ++ nl ++ "2. Test it "
     ++ nl ++ "rationale:" ++ nl ++ "Small steps.")
  = "1. Add a logger" ++ nl ++ "2. Test it".
Proof.
  exact (extractPlan_first_section
           ("Here is my proposal." ++ nl) "Implementation plan" " "
           "1"%char (". Add a logger" ++ nl ++ "2. Test it ")
           (nl ++ "rationale:" ++ nl ++ "Small steps.")
           eq_refl eq_refl eq_refl eq_refl eq_refl eq_refl eq_refl).
Defined.

(** X14: the rationale has no boundary but the end of the input.  When
    the first line of the input that carries a rationale label
    ("RATIONALE:" or "REASONING:", in any case, at the start of a line) is
    followed by white space and then by text, [extractRationale] returns
    all of that text up to the end of the input, trimmed, blank lines and
    later labels included. *)
Theorem extractRationale_runs_to_end pre label gap c body :
  ends_line pre = true ->
  no_labelled_line rationale_labels pre = true ->
  is_label_of rationale_labels label = true ->
  all_space gap = true ->
  is_space c = false ->
  extractRationale (pre ++ label ++ ":" ++ gap ++ String c body)
  = trim (String c body).
Proof.
  intros Hpre Hno Hl Hg Hc.
  destruct (exec_first_labelled rationale_labels Eol
              pre label gap c body "" eq_refl eq_refl Hpre Hno Hl Hg Hc)
    as (w & Hw & Hgr).
  - intros b'. apply eol_some.
  - intros t1 t2 _ Hne b'. apply eol_none.
    destruct t2; [ contradiction | discriminate ].
  - assert (E : String c body ++ "" = String c body).
    { generalize (String c body). intros u.
      induction u as [ | a u IH]; [ reflexivity | ].
      cbn [append]. now rewrite IH. }
    rewrite E in Hw.
    unfold extractRationale. rewrite rationaleRe_labelled, Hw.
    unfold group1_trimmed. now rewrite Hgr.
Qed.

(** X14 on a rationale of two paragraphs with a plan label in the
    second. *)
Lemma extractRationale_runs_to_end_witness :
  extractRationale
    ("PLAN: ship it" ++ nl ++ nl ++ "Reasoning:" ++ nl
     ++ "Small steps." ++ nl ++ nl ++ "Plan: none. ")
  = "Small steps." ++ nl ++ nl ++ "Plan: none.".
Proof.
  exact (extractRationale_runs_to_end
           ("PLAN: ship it" ++ nl ++ nl) "Reasoning" nl
           "S"%char ("mall steps." ++ nl ++ nl ++ "Plan: none. ")
           eq_refl eq_refl eq_refl eq_refl eq_refl).
Defined.

(** X15: without a line that starts with one of their labels and a
    colon, [extractPlan] and [extractRationale] return the empty text;
    neither has a fallback as [extractSystemPrompt] has. *)
Theorem plan_and_rationale_need_a_label content :
  (no_labelled_line plan_labels content = true -> extractPlan content = "")
  /\ (no_labelled_line rationale_labels content = true ->
      extractRationale content = "").
Proof.
  split; intros H.
  - unfold extractPlan. rewrite planRe_labelled.
    rewrite exec_without_label; [ reflexivity | discriminate | exact H ].
  - unfold extractRationale. rewrite rationaleRe_labelled.
    rewrite exec_without_label; [ reflexivity | discriminate | exact H ].
Qed.

(** X15 on a text whose labels stand in the middle of a line or lack the
    colon. *)
Lemma plan_and_rationale_need_a_label_witness :
  extractPlan ("The plan: log more." ++ nl ++ "Rationale" ++ nl ++ "None.")
  = ""
  /\ extractRationale
       ("The plan: log more." ++ nl ++ "Rationale" ++ nl ++ "None.")
     = "".
Proof.
  destruct (plan_and_rationale_need_a_label
              ("The plan: log more." ++ nl ++ "Rationale" ++ nl ++ "None."))
    as [HP HR].
  exact (conj (HP eq_refl) (HR eq_refl)).
Defined.

(** *** Blank inputs *)

Lemma canon_space c : is_space c = true -> canon c = c.
Proof.
  destruct c as [[] [] [] [] [] [] [] []]; intros H; vm_compute in H;
    try discriminate H; reflexivity.
Qed.

Lemma starts_ci_space p c s :
  visible_start p = true -> is_space c = true ->
  starts_ci p (String c s) = false.
Proof.
  destruct p as [ | a p]; [ discriminate | ]. cbn [visible_start starts_ci].
  intros Ha Hc. rewrite (canon_space c Hc).
  destruct (Ascii.eqb (canon a) c) eqn:E; [ | reflexivity ].
  apply Ascii.eqb_eq in E. rewrite E, Hc in Ha. discriminate Ha.
Qed.

Lemma any_label_at_space ps s :
  forallb (fun l => visible_start (l ++ ":")) ps = true ->
  all_space s = true -> any_label_at ps s = false.
Proof.
  intros Hv Hs. destruct s as [ | c s]; [ apply any_label_at_empty | ].
  cbn [all_space] in Hs. apply andb_true_iff in Hs. destruct Hs as [Hc _].
  unfold any_label_at. induction ps as [ | p ps IH]; [ reflexivity | ].
  cbn [forallb] in Hv. apply andb_true_iff in Hv. destruct Hv as [Hp Hv].
  cbn [existsb]. now rewrite (starts_ci_space _ c s Hp Hc), (IH Hv).
Qed.

Lemma no_labelled_line_space ps s :
  forallb (fun l => visible_start (l ++ ":")) ps = true ->
  all_space s = true -> no_labelled_line ps s = true.
Proof.
  intros Hv Hs. unfold no_labelled_line.
  rewrite (any_label_at_space ps s Hv Hs), andb_true_l.
  induction s as [ | c s IH]; [ reflexivity | ].
  cbn [all_space] in Hs. apply andb_true_iff in Hs. destruct Hs as [_ Hs].
  cbn [no_labels_after_lf]. rewrite (IH Hs), andb_true_r.
  destruct (Ascii.eqb c LF); [ | reflexivity ].
  now rewrite (any_label_at_space ps s Hv Hs).
Qed.

Lemma trimStart_all_space s : all_space s = true -> trimStart s = "".
Proof.
  induction s as [ | c s IH]; [ reflexivity | ].
  cbn [all_space trimStart]. intros H. apply andb_true_iff in H.
  destruct H as [Hc Hs]. rewrite Hc. now apply IH.
Qed.

Lemma trim_all_space s : all_space s = true -> trim s = "".
Proof. intros H. unfold trim. now rewrite trimStart_all_space. Qed.

Lemma split_lines_all_space s :
  all_space s = true -> forallb all_space (split_lines s) = true.
Proof.
  induction s as [ | c s IH]; [ reflexivity | ].
  cbn [all_space split_lines]. intros H. apply andb_true_iff in H.
  destruct H as [Hc Hs]. specialize (IH Hs).
  destruct (Ascii.eqb c LF); [ exact IH | ].
  destruct (split_lines s) as [ | l ls]; cbn [forallb all_space] in IH |- *.
  - now rewrite Hc.
  - apply andb_true_iff in IH. destruct IH as [Hl Hls].
    now rewrite Hc, Hl, Hls.
Qed.

Lemma nonblank_lines_all_space s : all_space s = true -> nonblank_lines s = [].
Proof.
  intros H. unfold nonblank_lines.
  pose proof (split_lines_all_space s H) as Hl.
  induction (split_lines s) as [ | l ls IH]; [ reflexivity | ].
  cbn [forallb] in Hl. apply andb_true_iff in Hl. destruct Hl as [Hl Hls].
  cbn [filter]. rewrite (trim_all_space l Hl). cbn [truthy]. now apply IH.
Qed.

(** X16: on an input of white space only (the empty input too) the
    three extractors return the empty text.  For [extractSystemPrompt]
    this is its last branch, taken when no line is left after the blank
    lines are dropped: what it returns there is always empty. *)
Theorem extractors_of_blank_input content :
  all_space content = true ->
  extractSystemPrompt content = ""
  /\ extractPlan content = ""
  /\ extractRationale content = "".
Proof.
  intros H. split; [ | split ].
  - unfold extractSystemPrompt. rewrite systemPromptRe_labelled.
    rewrite exec_without_label;
      [ | discriminate | now apply no_labelled_line_space ].
    rewrite (nonblank_lines_all_space content H).
    now apply trim_all_space.
  - unfold extractPlan. rewrite planRe_labelled.
    rewrite exec_without_label;
      [ reflexivity | discriminate | now apply no_labelled_line_space ].
  - unfold extractRationale. rewrite rationaleRe_labelled.
    rewrite exec_without_label;
      [ reflexivity | discriminate | now apply no_labelled_line_space ].
Qed.

(** X16 on two blank lines with spaces and a tab. *)
Lemma extractors_of_blank_input_witness :
  extractSystemPrompt ("  " ++ nl ++ String (ascii_of_nat 9) " " ++ nl) = ""
  /\ extractPlan ("  " ++ nl ++ String (ascii_of_nat 9) " " ++ nl) = ""
  /\ extractRationale ("  " ++ nl ++ String (ascii_of_nat 9) " " ++ nl) = "".
Proof.
  exact (extractors_of_blank_input
           ("  " ++ nl ++ String (ascii_of_nat 9) " " ++ nl) eq_refl).
Defined.

(** The last branch of [extractSystemPrompt] returns the empty text. *)
Lemma nonblank_lines_nil_all_space s :
  nonblank_lines s = [] -> all_space s = true.
Proof.
  unfold nonblank_lines. induction s as [ | c s IH]; [ reflexivity | ].
  cbn [split_lines all_space].
  destruct (Ascii.eqb c LF) eqn:Ec.
  - apply Ascii.eqb_eq in Ec. subst c. cbn [filter].
    change (truthy (trim "")) with false. cbv iota.
    intros H. now rewrite (IH H).
  - destruct (split_lines s) as [ | l ls] eqn:El.
    + exfalso. revert El. clear. destruct s as [ | a s]; [ discriminate | ].
      cbn [split_lines]. destruct (Ascii.eqb a LF); [ discriminate | ].
      destruct (split_lines s); discriminate.
    + cbn [filter] in IH |- *.
      destruct (truthy (trim (String c l))) eqn:Et; [ discriminate | ].
      intros H.
      assert (Hcl : is_space c = true /\ truthy (trim l) = false).
      { unfold trim in Et. cbn [trimStart] in Et.
        destruct (is_space c) eqn:Hc; [ now split | ].
        rewrite (trimEnd_visible_head c l Hc) in Et. discriminate Et. }
      destruct Hcl as [Hc Hl]. rewrite Hc, andb_true_l.
      apply IH. now rewrite Hl.
Qed.

(** *** Inputs without a label *)

Lemma trim_visible s : all_space s = false -> trim s <> "".
Proof.
  unfold trim. induction s as [ | c s IH]; [ discriminate | ].
  cbn [all_space trimStart]. destruct (is_space c) eqn:Hc.
  - rewrite andb_true_l. exact IH.
  - intros _. rewrite (trimEnd_visible_head c s Hc). discriminate.
Qed.

Lemma all_space_app_l a b : all_space a = false -> all_space (a ++ b) = false.
Proof.
  induction a as [ | c a IH]; [ discriminate | ].
  cbn [all_space append]. destruct (is_space c); [ | reflexivity ].
  rewrite !andb_true_l. exact IH.
Qed.

Lemma truthy_trim_visible l : truthy (trim l) = true -> all_space l = false.
Proof.
  intros H. destruct (all_space l) eqn:E; [ | reflexivity ].
  rewrite (trim_all_space l E) in H. discriminate H.
Qed.

Lemma join_first_lines l rest :
  exists u, join " " (firstn 3 (l :: rest)) = l ++ u.
Proof.
  destruct rest as [ | l2 rest].
  - exists "". clear. induction l as [ | a l IH]; [ reflexivity | ].
    cbn [firstn join append] in IH |- *. now rewrite <- IH.
  - exists (" " ++ join " " (firstn 2 (l2 :: rest))).
    destruct rest as [ | l3 rest]; reflexivity.
Qed.

Lemma nonblank_lines_head content l rest :
  nonblank_lines content = l :: rest -> truthy (trim l) = true.
Proof.
  unfold nonblank_lines. intros H.
  assert (Hin : In l (filter (fun l => truthy (trim l)) (split_lines content)))
    by (rewrite H; now left).
  apply filter_In in Hin. now destruct Hin.
Qed.

(** X17: the fallback of [extractSystemPrompt] loses no input.  When no
    line of the input starts with a system-prompt label and the input has
    a visible character, what [extractSystemPrompt] returns is not
    empty. *)
Theorem extractSystemPrompt_keeps_unlabelled_text content :
  no_labelled_line system_labels content = true ->
  all_space content = false ->
  extractSystemPrompt content <> "".
Proof.
  intros Hno Hv. unfold extractSystemPrompt. rewrite systemPromptRe_labelled.
  rewrite exec_without_label; [ | discriminate | exact Hno ].
  destruct (nonblank_lines content) as [ | l rest] eqn:El.
  - apply nonblank_lines_nil_all_space in El. rewrite El in Hv.
    discriminate Hv.
  - pose proof (nonblank_lines_head _ _ _ El) as Hl.
    destruct (200 <? String.length l).
    + destruct (trim (take 200 l)); discriminate.
    + destruct (join_first_lines l rest) as (u & ->).
      apply trim_visible, all_space_app_l. now apply truthy_trim_visible.
Qed.

(** X17 on two lines after a blank one. *)
Lemma extractSystemPrompt_keeps_unlabelled_text_witness :
  extractSystemPrompt (nl ++ " Use the system: log." ++ nl ++ "Test it.")
  <> "".
Proof.
  exact (extractSystemPrompt_keeps_unlabelled_text
           (nl ++ " Use the system: log." ++ nl ++ "Test it.")
           eq_refl eq_refl).
Defined.

Lemma split_lines_one_line s : has_lf s = false -> split_lines s = [s].
Proof.
  induction s as [ | c s IH]; [ reflexivity | ].
  cbn [has_lf split_lines]. intros H. apply orb_false_iff in H.
  destruct H as [Hc Hs]. now rewrite Hc, (IH Hs).
Qed.

Lemma no_labels_after_lf_one_line ps s :
  has_lf s = false -> no_labels_after_lf ps s = true.
Proof.
  induction s as [ | c s IH]; [ reflexivity | ].
  cbn [has_lf no_labels_after_lf]. intros H. apply orb_false_iff in H.
  destruct H as [Hc Hs]. now rewrite Hc, (IH Hs).
Qed.

(** X18: [planWithJanus] hands to [mergeSystemPrompts] what
    [extractSystemPrompt] returned, and [mergeSystemPrompts] extracts
    again.  The second extraction changes nothing when the first result
    is one trimmed line of at most 200 characters that does not start
    with a system-prompt label: such a text is a fixed point of
    [extractSystemPrompt]. *)
Theorem extractSystemPrompt_fixed_point core :
  has_lf core = false ->
  trim core = core ->
  String.length core <= 200 ->
  any_label_at system_labels core = false ->
  extractSystemPrompt core = core.
Proof.
  intros Hlf Ht Hlen Hlab. unfold extractSystemPrompt.
  rewrite systemPromptRe_labelled.
  rewrite exec_without_label;
    [ | discriminate
      | unfold no_labelled_line;
        now rewrite Hlab, no_labels_after_lf_one_line ].
  unfold nonblank_lines. rewrite (split_lines_one_line core Hlf).
  cbn [filter]. rewrite Ht.
  destruct core as [ | a core']; [ reflexivity | ].
  cbn [truthy]. cbv iota.
  apply Nat.ltb_ge in Hlen. rewrite Hlen.
  cbn [firstn join]. exact Ht.
Qed.

(** X18 on a core that the first extraction returned. *)
Lemma extractSystemPrompt_fixed_point_witness :
  extractSystemPrompt (extractSystemPrompt ("System: Build it carefully. "))
  = extractSystemPrompt ("System: Build it carefully. ").
Proof.
  exact (extractSystemPrompt_fixed_point "Build it carefully."
           eq_refl eq_refl
           (proj1 (Nat.leb_le 19 200) eq_refl) eq_refl).
Defined.

End ExtractMore.

(* ===================================================================== *)
(** ** janus/src/index.ts: theorems                                       *)
(* ===================================================================== *)

Module MainTheorems.
Import Js Orchestrator ClaudePlanner ChainFacts JanusMain MoreFacts
  ChainTheorems.

Lemma jsonMode_app before after :
  jsonMode (before ++ after)%list = jsonMode before || jsonMode after.
Proof. unfold jsonMode. apply existsb_app. Qed.

Lemma taskArgs_app before after :
  taskArgs (before ++ after)%list
  = (taskArgs before ++ taskArgs after)%list.
Proof. unfold taskArgs. apply filter_app. Qed.

(** X19: the flag [--json] is found wherever it stands among the
    arguments, and it is no part of the task: the task is the one of the
    same command line without the flag. *)
Theorem json_flag_anywhere before after :
  jsonMode (before ++ "--json" :: after)%list = true
  /\ task_of (before ++ "--json" :: after)%list
     = task_of (before ++ after)%list.
Proof.
  split.
  - rewrite jsonMode_app.
    change (jsonMode ("--json" :: after)) with (true || jsonMode after).
    apply orb_true_r.
  - unfold task_of. rewrite !taskArgs_app.
    change (taskArgs ("--json" :: after)) with (taskArgs after).
    reflexivity.
Qed.




End MainTheorems.
